(** * PPE safety-rule violation pipeline: a shallow embedding of the
      decision logic of [app_main.py], [app.py], [app2.py] and [app3.py].

    Modelling conventions.
    - Pixel coordinates are Python [int]s (the code applies [map(int, ...)]
      to every box), modelled as [Z].
    - Python [float]s (confidences, thresholds, clock readings, the IoU
      quotient) are modelled as exact rationals [Q]: every finite double is a
      rational, comparisons between doubles are exact, and the two places
      where the interpreter rounds (the IoU quotient and the difference of
      two clock readings) are taken at their exact value.
      For the IoU test [> 0.2] the exact and the rounded comparison agree
      whenever the union of the two boxes has fewer than [2^52] pixels, and
      the areas of boxes that come from the detector's float32 coordinates
      are far below the largest double, so [float(...)] does not overflow.
    - A Python exception is the [None] of an [option] result.
    - Drawing and the encoding of files and mails are outside the model; a
      write, a mail or a message shown is an entry of an event log. Of
      cropping and resizing the model keeps what decides the control flow:
      whether the crop of a person is empty, on which [cv2.resize] raises.
    - [dict]s with string keys are [gmap string _]. *)

From Stdlib Require Import ZArith QArith Lia DecimalString.
From stdpp Require Import gmap strings list fin_maps sorting.

Local Open Scope Z_scope.

(* ===================================================================== *)
(** ** Geometry utility: [iou] of [app_main.py]                          *)
(* ===================================================================== *)

Module Geometry.

(** A box is the tuple [(x1, y1, x2, y2)]. *)
Record box : Type := Box { bx1 : Z; by1 : Z; bx2 : Z; by2 : Z }.

#[global] Instance box_eq_dec : EqDecision box.
Proof. solve_decision. Defined.

(** [n / float(d)]: raises [ZeroDivisionError] when [d] is zero. *)
Definition truediv (n d : Z) : option Q :=
  if d =? 0 then None else Some (inject_Z n / inject_Z d)%Q.

Definition interArea (boxA boxB : box) : Z :=
  let xA := Z.max (bx1 boxA) (bx1 boxB) in
  let yA := Z.max (by1 boxA) (by1 boxB) in
  let xB := Z.min (bx2 boxA) (bx2 boxB) in
  let yB := Z.min (by2 boxA) (by2 boxB) in
  Z.max 0 (xB - xA) * Z.max 0 (yB - yA).

Definition boxArea (b : box) : Z := (bx2 b - bx1 b) * (by2 b - by1 b).

Definition iou (boxA boxB : box) : option Q :=
  let inter := interArea boxA boxB in
  if inter =? 0 then Some 0%Q
  else
    let boxAArea := boxArea boxA in
    let boxBArea := boxArea boxB in
    truediv inter (boxAArea + boxBArea - inter).

(** A box is degenerate when it has no interior. *)
Definition degenerate (b : box) : Prop := bx2 b <= bx1 b \/ by2 b <= by1 b.

(** Pixel [(x, y)] lies in the box (half-open on the far edges, as in the
    slice [frame[y1:y2, x1:x2]] the code crops). *)
Definition covers (b : box) (x y : Z) : Prop :=
  bx1 b <= x < bx2 b /\ by1 b <= y < by2 b.

Definition disjoint (boxA boxB : box) : Prop :=
  forall x y, ~ (covers boxA x y /\ covers boxB x y).

End Geometry.

Import Geometry.


(* ===================================================================== *)
(** ** Helpers shared by the four variants                               *)
(* ===================================================================== *)

Definition Qlt_bool (x y : Q) : bool := negb (Qle_bool y x).

(** One entry of [result.boxes], after the conversions every variant
    applies: [model.names[int(box.cls[0])]], [map(int, box.xyxy[0])] and
    [float(box.conf[0])]. *)
Record raw_box : Type :=
  RawBox { rb_label : string; rb_box : box; rb_conf : Q }.

(** [len(l)] as a Python [int]. *)
Definition len {A} (l : list A) : Z := Z.of_nat (length l).

(** A left-to-right loop whose body may raise. *)
Fixpoint foldM {S A} (body : S -> A -> option S) (s : S) (l : list A)
  : option S :=
  match l with
  | [] => Some s
  | a :: rest => s' ← body s a; foldM body s' rest
  end.

(* ===================================================================== *)
(** ** [app_main.py]: thresholds, IoU association, throttled capture     *)
(* ===================================================================== *)

Module AppMain.

(** What one iteration of the loop receives from outside: the detector's
    [result.boxes] ([None] when there is no boxes object) and the key
    code [cv2.waitKey(1)] returns once the frame has been shown. *)
Record frame : Type := Frame { f_boxes : option (list raw_box); f_key : Z }.

(** [cv2.VideoCapture(source)]: whether it opened, the size of its frames
    ([frame.shape[0]] rows by [frame.shape[1]] columns, the same for every
    frame of one source), and the frames [cap.read()] will deliver before
    [ret] turns false. *)
Record capture : Type := Capture {
  isOpened : bool;
  frame_rows : Z;
  frame_cols : Z;
  frames : list frame
}.

Inductive ppe : Type := Hardhats | FaceMasks | Vests.

(** One line [- {persons} persons, only {have} {what}] of
    [violation_details]. *)
Record finding : Type :=
  Finding { fi_what : ppe; fi_persons : Z; fi_have : Z }.

(** The values interpolated into [summary_msg]. *)
Record summary : Type := Summary {
  sm_persons : Z;
  sm_hardhats : Z;
  sm_masks : Z;
  sm_vests : Z;
  sm_violation_frames : Z;
  sm_details : list finding
}.

Inductive event : Type :=
| ClearFolder                              (* clear_violator_folder() *)
| StError                                  (* st.error("Cannot open ...") *)
| WriteViolation (frame_idx : Z) (crop : box)
                                           (* cv2.imwrite(violation_{idx}.jpg) *)
| SendEmail (violations total_frames : Z) (s : summary)
| StSuccessProcessed (total_frames violations : Z)
                                           (* st.success("Processed ...") *)
| StSuccessEmail.                          (* st.success("Email sent ...") *)

Record state : Type := State {
  frame_idx : Z;
  alert_count : Z;
  last_capture_time : Q;
  detections : gmap string (list box);
  ticks : nat;                    (* calls of [time.time()] made so far *)
  log : list event                (* effects so far, oldest first *)
}.

Definition thresholds_ui : gmap string Q :=
  {[ "Person" := (1#2)%Q; "Hardhat" := (1#2)%Q;
     "Face Mask" := (1#2)%Q; "Safety Vest" := (1#2)%Q ]}.

Definition detections0 : gmap string (list box) :=
  {[ "Person" := []; "Hardhat" := []; "Face Mask" := []; "Safety Vest" := [] ]}.

(** Line 124, the guard [label in thresholds and conf >= thresholds[label]]. *)
Definition passes (thresholds : gmap string Q) (rb : raw_box) : bool :=
  match thresholds !! rb_label rb with
  | Some t => Qle_bool t (rb_conf rb)
  | None => false
  end.

(** Lines 124-125: under the guard, [detections[label].append(...)]; a
    label that is not a key of [detections] raises [KeyError]. *)
Definition ingest_box (thresholds : gmap string Q)
    (d : gmap string (list box)) (rb : raw_box)
  : option (gmap string (list box)) :=
  if passes thresholds rb then
    l ← d !! rb_label rb;
    Some (<[rb_label rb := l ++ [rb_box rb]]> d)
  else Some d.

Definition ingest (thresholds : gmap string Q)
    (d : gmap string (list box)) (boxes : option (list raw_box))
  : option (gmap string (list box)) :=
  match boxes with
  | None => Some d
  | Some bs => foldM (ingest_box thresholds) d bs
  end.

(** Lines 132-133: [any(iou(person_box, h) > 0.2 for h in hardhats)]. *)
Fixpoint has_helmet (person_box : box) (hardhats : list box) : option bool :=
  match hardhats with
  | [] => Some false
  | h :: rest =>
      q ← iou person_box h;
      if Qlt_bool (2#10) q then Some true else has_helmet person_box rest
  end.

(** Lines 138-140: the gate [now - last_capture_time > 8] and the update
    of [last_capture_time]; returns whether to write and the new value. *)
Definition throttle (last now : Q) : bool * Q :=
  if Qlt_bool 8 (now - last) then (true, now) else (false, last).

(** Where the bound [i] of a slice falls on an axis of length [n]: a
    negative bound counts from the end, and bounds are clamped to the
    axis. *)
Definition slice_index (n i : Z) : Z :=
  if i <? 0 then Z.max (i + n) 0 else Z.min i n.

(** The length of the slice [a:b] of an axis of length [n]. *)
Definition slice_len (n a b : Z) : Z :=
  Z.max 0 (slice_index n b - slice_index n a).

(** Line 135: whether the crop [frame[py1:py2, px1:px2]] of a frame of
    [rows] by [cols] pixels is empty. *)
Definition crop_empty (rows cols : Z) (b : box) : bool :=
  (slice_len rows (by1 b) (by2 b) =? 0) || (slice_len cols (bx1 b) (bx2 b) =? 0).

Section Session.

Variable clock : nat -> Q.          (* n-th reading of [time.time()] *)
Variable is_live : bool.
Variable thresholds : gmap string Q.

(** Lines 93-105. *)
Definition init : state :=
  {| frame_idx := 0; alert_count := 0;
     last_capture_time := clock 0;
     detections := detections0;
     ticks := 1;
     log := [ClearFolder] |}.

(** Body of the loop over [detections["Person"]], lines 131-143, on a
    frame of [rows] by [cols] pixels; [cv2.resize] (line 136) raises
    [cv2.error] on an empty crop. *)
Definition process_person (rows cols : Z) (st : state) (person_box : box)
  : option state :=
  hardhats ← detections st !! "Hardhat";
  helmet ← has_helmet person_box hardhats;
  if (helmet : bool) then Some st
  else if crop_empty rows cols person_box then None
  else
    let now := clock (ticks st) in
    let '(fire, last) := throttle (last_capture_time st) now in
    Some {| frame_idx := frame_idx st;
            alert_count := alert_count st + 1;
            last_capture_time := last;
            detections := detections st;
            ticks := S (ticks st);
            log := if fire
                   then log st ++ [WriteViolation (frame_idx st) person_box]
                   else log st |}.

(** Lines 112-151: one iteration after a successful [cap.read()]. *)
Definition process_frame (rows cols : Z) (st : state) (f : frame)
  : option state :=
  d ← ingest thresholds ((λ _, []) <$> detections st) (f_boxes f);
  persons ← d !! "Person";
  st' ← foldM (process_person rows cols)
          {| frame_idx := frame_idx st + 1;
             alert_count := alert_count st;
             last_capture_time := last_capture_time st;
             detections := d;
             ticks := ticks st;
             log := log st |}
          persons;
  _ ← d !! "Person"; _ ← d !! "Hardhat";
  _ ← d !! "Face Mask"; _ ← d !! "Safety Vest";
  Some st'.

(** Lines 107-157. *)
Fixpoint run (rows cols : Z) (st : state) (fs : list frame) : option state :=
  match fs with
  | [] => Some st
  | f :: rest =>
      st' ← process_frame rows cols st f;
      if is_live && (f_key f =? 27) then Some st' else run rows cols st' rest
  end.

(** Lines 174-182. *)
Definition deficit (what : ppe) (persons have : Z) : list finding :=
  if have <? persons then [Finding what persons have] else [].

(** Lines 161-191. *)
Definition summarise (st : state) : option summary :=
  persons ← detections st !! "Person";
  hardhats ← detections st !! "Hardhat";
  masks ← detections st !! "Face Mask";
  vests ← detections st !! "Safety Vest";
  let total_persons := len persons in
  let total_hardhats := Z.min (len hardhats) total_persons in
  let total_masks := Z.min (len masks) total_persons in
  let total_vests := Z.min (len vests) total_persons in
  Some {| sm_persons := total_persons;
          sm_hardhats := total_hardhats;
          sm_masks := total_masks;
          sm_vests := total_vests;
          sm_violation_frames := alert_count st;
          sm_details := deficit Hardhats total_persons total_hardhats
                        ++ deficit FaceMasks total_persons total_masks
                        ++ deficit Vests total_persons total_vests |}.

Inductive outcome : Type :=
| StartFailure
| Completed (total_frames : Z) (s : summary).

(** The whole of [detect_and_process]: what happened and the effects
    performed, oldest first. *)
Definition detect_and_process (cap : capture)
  : option (outcome * list event) :=
  if negb (isOpened cap) then Some (StartFailure, [ClearFolder; StError])
  else
    st ← run (frame_rows cap) (frame_cols cap) init (frames cap);
    s ← summarise st;
    Some (Completed (frame_idx st) s,
          log st ++ [SendEmail (alert_count st) (frame_idx st) s;
                     StSuccessProcessed (frame_idx st) (alert_count st);
                     StSuccessEmail]).

End Session.

End AppMain.

(* ===================================================================== *)
(** ** [app.py]: presence policy                                         *)
(* ===================================================================== *)

Module App.

(** [results = model(frame)]: a list of results, each with a [boxes]
    attribute that may be [None]. *)
Definition frame : Type := list (option (list raw_box)).

Record capture : Type :=
  Capture { isOpened : bool; fps : Q; frames : list frame }.

Inductive event : Type :=
| PrintCannotOpen
| WriteFrame (frame_idx : Z)       (* annotated_frames/frame_{idx:05d}.jpg *)
| WriteAlert (frame_idx : Z).      (* alert_images/alert_{idx:05d}.jpg *)

Record state : Type := State {
  frame_idx : Z;
  alert_images : list Z;           (* the alert files, by frame index *)
  log : list event
}.

(** Lines 94-97, on the pair [(person_detected, hardhat_detected)]. *)
Definition scan_box (flags : bool * bool) (rb : raw_box) : bool * bool :=
  let '(person_detected, hardhat_detected) := flags in
  let person_detected :=
    if (rb_label rb =? "Person")%string then true else person_detected in
  let hardhat_detected :=
    if (rb_label rb =? "Hardhat")%string then true else hardhat_detected in
  (person_detected, hardhat_detected).

(** Lines 85-97. *)
Definition scan_result (flags : bool * bool) (r : option (list raw_box))
  : bool * bool :=
  match r with
  | None => flags
  | Some bs => fold_left scan_box bs flags
  end.

Definition scan (f : frame) : bool * bool :=
  fold_left scan_result f (false, false).

(** Line 104. *)
Definition violating (f : frame) : bool :=
  let '(person_detected, hardhat_detected) := scan f in
  person_detected && negb hardhat_detected.

(** Lines 80-108. *)
Definition process_frame (st : state) (f : frame) : state :=
  let idx := frame_idx st + 1 in
  if violating f then
    {| frame_idx := idx;
       alert_images := alert_images st ++ [idx];
       log := log st ++ [WriteFrame idx; WriteAlert idx] |}
  else
    {| frame_idx := idx;
       alert_images := alert_images st;
       log := log st ++ [WriteFrame idx] |}.

Definition init : state :=
  {| frame_idx := 0; alert_images := []; log := [] |}.

(** [process_video]: the returned value ([None] for a bare [return]) and
    the effects performed. *)
Definition process_video (cap : capture)
  : option (Q * Z * list Z) * list event :=
  if negb (isOpened cap) then (None, [PrintCannotOpen])
  else
    let st := fold_left process_frame (frames cap) init in
    (Some (fps cap, frame_idx st, alert_images st), log st).

End App.

(* ===================================================================== *)
(** ** [app2.py]: count-deficit policy                                   *)
(* ===================================================================== *)

Module App2.

Definition frame : Type := list (option (list raw_box)).

Record capture : Type :=
  Capture { isOpened : bool; fps : Q; frames : list frame }.

Inductive event : Type :=
| PrintCannotOpen
| WriteFrame (frame_idx : Z)
| WriteAlert (frame_idx : Z).

Record counts : Type := Counts {
  person_count : Z; hardhat_count : Z; vest_count : Z; mask_count : Z
}.

Record state : Type := State {
  frame_idx : Z;
  alert_count : Z;
  log : list event
}.

(** Lines 106-113. *)
Definition count_box (c : counts) (rb : raw_box) : counts :=
  let label := rb_label rb in
  if (label =? "Person")%string then
    {| person_count := person_count c + 1; hardhat_count := hardhat_count c;
       vest_count := vest_count c; mask_count := mask_count c |}
  else if (label =? "Hardhat")%string then
    {| person_count := person_count c; hardhat_count := hardhat_count c + 1;
       vest_count := vest_count c; mask_count := mask_count c |}
  else if (label =? "Safety Vest")%string then
    {| person_count := person_count c; hardhat_count := hardhat_count c;
       vest_count := vest_count c + 1; mask_count := mask_count c |}
  else if (label =? "Mask")%string || (label =? "NO-Mask")%string then
    {| person_count := person_count c; hardhat_count := hardhat_count c;
       vest_count := vest_count c; mask_count := mask_count c + 1 |}
  else c.

Definition count_result (c : counts) (r : option (list raw_box)) : counts :=
  match r with
  | None => c
  | Some bs => fold_left count_box bs c
  end.

(** Lines 92-113. *)
Definition count (f : frame) : counts :=
  fold_left count_result f (Counts 0 0 0 0).

(** Line 135. *)
Definition violating (f : frame) : bool :=
  let c := count f in
  (0 <? person_count c) && (hardhat_count c <? person_count c).

(** Lines 90-139. *)
Definition process_frame (st : state) (f : frame) : state :=
  let idx := frame_idx st + 1 in
  if violating f then
    {| frame_idx := idx;
       alert_count := alert_count st + 1;
       log := log st ++ [WriteFrame idx; WriteAlert idx] |}
  else
    {| frame_idx := idx;
       alert_count := alert_count st;
       log := log st ++ [WriteFrame idx] |}.

Definition init : state := {| frame_idx := 0; alert_count := 0; log := [] |}.

(** [process_video] returns [(fps, frame_idx, alert_count)], with
    [fps = None] when the source did not open. *)
Definition process_video (cap : capture)
  : (option Q * Z * Z) * list event :=
  if negb (isOpened cap) then ((None, 0, 0), [PrintCannotOpen])
  else
    let st := fold_left process_frame (frames cap) init in
    ((Some (fps cap), frame_idx st, alert_count st), log st).

End App2.

(* ===================================================================== *)
(** ** [app3.py]: count-deficit policy with periodic summaries           *)
(* ===================================================================== *)

Module App3.

Definition frame : Type := list (option (list raw_box)).

Record capture : Type :=
  Capture { isOpened : bool; fps : Q; frames : list frame }.

Inductive event : Type :=
| PrintCannotOpen
| WriteFrame (frame_idx : Z)
| WriteAlert (frame_idx : Z)
| WriteSummary (frame_idx : Z) (highlighted : list box).
                                  (* highlighted_summary/summary_{idx:05d}.jpg *)

(** The per-frame locals [person_count], [hardhat_count] and
    [violations_to_draw]. *)
Record scan : Type := Scan {
  person_count : Z; hardhat_count : Z; violations_to_draw : list box
}.

Record state : Type := State {
  frame_idx : Z;
  alert_count : Z;
  log : list event
}.

(** Lines 103-115. *)
Definition scan_box (s : scan) (rb : raw_box) : scan :=
  let label := rb_label rb in
  let s1 :=
    if (label =? "Person")%string then
      {| person_count := person_count s + 1; hardhat_count := hardhat_count s;
         violations_to_draw := violations_to_draw s |}
    else if (label =? "Hardhat")%string then
      {| person_count := person_count s; hardhat_count := hardhat_count s + 1;
         violations_to_draw := violations_to_draw s |}
    else s in
  if (label =? "Person")%string then
    {| person_count := person_count s1; hardhat_count := hardhat_count s1;
       violations_to_draw := violations_to_draw s1 ++ [rb_box rb] |}
  else s1.

Definition scan_result (s : scan) (r : option (list raw_box)) : scan :=
  match r with
  | None => s
  | Some bs => fold_left scan_box bs s
  end.

Definition scan_frame (f : frame) : scan :=
  fold_left scan_result f (Scan 0 0 []).

(** Line 127. *)
Definition violating (f : frame) : bool :=
  let s := scan_frame f in
  (0 <? person_count s) && (hardhat_count s <? person_count s).

(** Lines 88-141. *)
Definition process_frame (st : state) (f : frame) : state :=
  let idx := frame_idx st + 1 in
  if violating f then
    {| frame_idx := idx;
       alert_count := alert_count st + 1;
       log := log st ++ [WriteFrame idx; WriteAlert idx]
              ++ (if idx mod 70 =? 0
                  then [WriteSummary idx (violations_to_draw (scan_frame f))]
                  else []) |}
  else
    {| frame_idx := idx;
       alert_count := alert_count st;
       log := log st ++ [WriteFrame idx] |}.

Definition init : state := {| frame_idx := 0; alert_count := 0; log := [] |}.

Definition process_video (cap : capture)
  : (option Q * Z * Z) * list event :=
  if negb (isOpened cap) then ((None, 0, 0), [PrintCannotOpen])
  else
    let st := fold_left process_frame (frames cap) init in
    ((Some (fps cap), frame_idx st, alert_count st), log st).

End App3.

(* ===================================================================== *)
(** ** The design document's wording, for comparison with the code       *)
(* ===================================================================== *)

Module Spec.

(** Detection Ingestion as worded: a record is kept when its confidence
    reaches its label's threshold, and a label without a configured
    threshold passes unfiltered. *)
Definition passes (thresholds : gmap string Q) (rb : raw_box) : bool :=
  match thresholds !! rb_label rb with
  | Some t => Qle_bool t (rb_conf rb)
  | None => true
  end.

(** Alert Throttler as worded: [should_capture(now)] on a state that is
    unset before the first capture; returns the verdict and the new
    state. *)
Definition should_capture (min_interval : Q) (last : option Q) (now : Q)
  : bool * option Q :=
  match last with
  | None => (true, Some now)
  | Some t =>
      if Qle_bool min_interval (now - t) then (true, Some now)
      else (false, last)
  end.

(** Periodic snapshot gate as worded: [frame_index % N == 0]. *)
Definition snapshot_due (N frame_index : Z) : bool := frame_index mod N =? 0.

(** Session Aggregator as worded: per frame, add the frame's per-class
    count to the running total and add one to [violation_frames] when the
    frame is flagged. *)
Record counters : Type := Counters {
  frames_processed : Z;
  violation_frames : Z;
  totals : string -> Z
}.

Definition aggregate (flagged : gmap string (list box) -> bool)
    (c : counters) (set : gmap string (list box)) : counters :=
  {| frames_processed := frames_processed c + 1;
     violation_frames :=
       violation_frames c + (if flagged set then 1 else 0);
     totals := λ label, totals c label + len (default [] (set !! label)) |}.

Definition session (flagged : gmap string (list box) -> bool)
    (sets : list (gmap string (list box))) : counters :=
  fold_left (aggregate flagged) sets (Counters 0 0 (λ _, 0)).

End Spec.

(** The detection set [app_main.py] builds for one frame, and its
    per-person verdict on it (some person has no overlapping hardhat). *)
Definition frame_set (thresholds : gmap string Q) (f : AppMain.frame)
  : option (gmap string (list box)) :=
  AppMain.ingest thresholds ((λ _, []) <$> AppMain.detections0)
                 (AppMain.f_boxes f).

Definition per_person_flagged (set : gmap string (list box)) : bool :=
  existsb (λ p, bool_decide
                  (AppMain.has_helmet p (default [] (set !! "Hardhat"))
                   = Some false))
          (default [] (set !! "Person")).

(** Number of boxes with a given label among all results of a frame. *)
Definition all_boxes (results : list (option (list raw_box))) : list raw_box :=
  flat_map (λ r, default [] r) results.

Definition count_label (label : string) (bs : list raw_box) : Z :=
  len (List.filter (λ rb, (rb_label rb =? label)%string) bs).

(** The boxes ingestion files under [label]: those of the records with
    that label that pass the guard of line 124, in detector order. *)
Definition selected (thresholds : gmap string Q) (label : string)
    (bs : list raw_box) : list box :=
  rb_box <$> List.filter
    (λ rb, (rb_label rb =? label)%string && AppMain.passes thresholds rb) bs.

(** The dictionary [detections] has the four keys of its initial literal. *)
Definition tracked (d : gmap string (list box)) : Prop :=
  dom d = dom AppMain.detections0.

(** The total a summary reports for a class of equipment. *)
Definition class_total (what : AppMain.ppe) (s : AppMain.summary) : Z :=
  match what with
  | AppMain.Hardhats => AppMain.sm_hardhats s
  | AppMain.FaceMasks => AppMain.sm_masks s
  | AppMain.Vests => AppMain.sm_vests s
  end.

(** A clock that advances one second per reading, from 0. *)
Definition clock_seconds (n : nat) : Q := inject_Z (Z.of_nat n).

(** Two confident, bare-headed persons, side by side. *)
Definition person_left : raw_box := RawBox "Person" (Box 0 0 10 20) (9#10).
Definition person_right : raw_box := RawBox "Person" (Box 30 0 40 20) (9#10).

(** A hardhat on the head of [person_left]. *)
Definition hardhat_left : raw_box := RawBox "Hardhat" (Box 2 0 8 5) (9#10).

(* ===================================================================== *)
(** ** Frame files and [recreate_video_from_frames]                      *)
(* ===================================================================== *)

Module Files.

(** [str(x)] of a Python [int]. *)
Definition str (x : Z) : string := NilZero.string_of_int (Z.to_int x).

(** Left padding with ["0"] up to [width] characters. *)
Definition zfill (width : nat) (s : string) : string :=
  String.concat "" (replicate (width - String.length s) "0"%string) +:+ s.

(** The format [{x:05d}]: at least five characters, zeros after the sign. *)
Definition format_05d (x : Z) : string :=
  match x with
  | Zneg p => "-" +:+ zfill 4 (str (Zpos p))
  | _ => zfill 5 (str x)
  end.

(** The base name of [f"{FRAME_FOLDER}/frame_{frame_idx:05d}.jpg"]. *)
Definition frame_name (frame_idx : Z) : string :=
  "frame_" +:+ format_05d frame_idx +:+ ".jpg".

(** The order [sorted] uses on [str]: lexicographic, by character code. *)
Definition str_le (s1 s2 : string) : Prop := String.leb s1 s2.

(** [sorted(names)]. *)
Definition sorted (names : list string) : list string :=
  merge_sort str_le names.

(** [recreate_video_from_frames], given what [os.listdir(FRAME_FOLDER)]
    returns: [None] when it only prints the warning, else the files it
    writes to the video, in writing order. *)
Definition recreate_video_from_frames (listdir : list string)
  : option (list string) :=
  match sorted listdir with
  | [] => None
  | frame_files => Some frame_files
  end.

End Files.

(** [test k], [test (k + 1)], ... hold, [n] of them. *)
Fixpoint all_from (test : Z -> bool) (k : Z) (n : nat) : bool :=
  match n with
  | O => true
  | S n' => test k && all_from test (k + 1) n'
  end.

(* ===================================================================== *)
(** ** The scripts of [app.py] and [app2.py]: mail and main flow         *)
(* ===================================================================== *)

Module AppScript.

Inductive body : Type := Violations | AllClear.

(** The mail of [send_summary_email]: which of the two texts, and the
    attached alert files, by frame index. *)
Record message : Type :=
  Message { msg_body : body; msg_attachments : list Z }.

Inductive event : Type :=
| Video (e : App.event)            (* an effect of [process_video] *)
| RecreateVideo (fps : Q)          (* the call of line 136 *)
| Sent (m : message)               (* [server.sendmail] went through *)
| PrintMailSent
| PrintMailFailed
| PrintDone.

(** How [main] ends: it returns, or the tuple assignment of line 135
    raises [TypeError] on [None]. *)
Inductive outcome : Type := Returned | Raised.

(** Lines 33-61; [smtp_ok] tells whether the [try] block goes through. *)
Definition send_summary_email (smtp_ok : bool) (image_paths : list Z)
  : list event :=
  let m := match image_paths with
           | [] => Message AllClear []
           | _ => Message Violations image_paths
           end in
  if smtp_ok then [Sent m; PrintMailSent] else [PrintMailFailed].

(** Lines 131-138. *)
Definition main (smtp_ok : bool) (cap : App.capture) : list event * outcome :=
  match App.process_video cap with
  | (None, evs) => (Video <$> evs, Raised)
  | (Some (fps, total_frames, alert_images), evs) =>
      ((Video <$> evs) ++ [RecreateVideo fps]
       ++ send_summary_email smtp_ok alert_images ++ [PrintDone],
       Returned)
  end.

End AppScript.

Module App2Script.

Inductive body : Type :=
| Violations (violations total_frames : Z)
| AllClear (total_frames : Z).

(** The mail of [send_summary_email]: its text and whether the zip of the
    alert folder is attached. *)
Record message : Type := Message { msg_body : body; msg_zip : bool }.

Inductive event : Type :=
| Video (e : App2.event)
| RecreateVideo (fps : Q)
| ZipAlerts
| Sent (m : message)
| PrintMailSent
| PrintMailFailed
| PrintDone.

(** Lines 43-71. *)
Definition send_summary_email (smtp_ok : bool) (violations total_frames : Z)
  : list event :=
  let m := if 0 <? violations
           then Message (Violations violations total_frames) true
           else Message (AllClear total_frames) false in
  if smtp_ok then [Sent m; PrintMailSent] else [PrintMailFailed].

(** Lines 163-180. *)
Definition main (smtp_ok : bool) (cap : App2.capture) : list event :=
  let '((fps, total_frames, alert_count), evs) := App2.process_video cap in
  (Video <$> evs)
  ++ match fps with
     | Some fps =>
         [RecreateVideo fps; ZipAlerts]
         ++ send_summary_email smtp_ok alert_count total_frames
     | None => []
     end
  ++ [PrintDone].

End App2Script.

(* ===================================================================== *)
(** ** Vocabulary for further properties of the code                     *)
(* ===================================================================== *)

(** The box moved by [(dx, dy)]. *)
Definition shift (dx dy : Z) (b : box) : box :=
  Box (bx1 b + dx) (by1 b + dy) (bx2 b + dx) (by2 b + dy).

(** [stricter] thresholds configure no new label and lower no bound. *)
Definition stricter (strict lax : gmap string Q) : Prop :=
  forall label t', strict !! label = Some t' ->
    exists t, lax !! label = Some t /\ (t <= t')%Q.

(** The persons, among [persons], that no box of [hardhats] overlaps by
    more than 0.2. *)
Definition unequipped_among (hardhats persons : list box) : list box :=
  List.filter
    (λ p, bool_decide (AppMain.has_helmet p hardhats = Some false)) persons.

(** The persons of a frame, as ingestion keeps them, that no kept hardhat
    overlaps by more than 0.2. *)
Definition unequipped_persons (thresholds : gmap string Q)
    (f : AppMain.frame) : list box :=
  let bs := default [] (AppMain.f_boxes f) in
  List.filter
    (λ p, bool_decide
            (AppMain.has_helmet p (selected thresholds "Hardhat" bs)
             = Some false))
    (selected thresholds "Person" bs).

Definition total_unequipped (thresholds : gmap string Q)
    (fs : list AppMain.frame) : Z :=
  foldr (λ f acc, len (unequipped_persons thresholds f) + acc) 0 fs.

(** The frames the loop of [detect_and_process] gets to process: all of
    them, or in live mode those up to the first one after which the key
    code is 27. *)
Fixpoint shown (is_live : bool) (fs : list AppMain.frame)
  : list AppMain.frame :=
  match fs with
  | [] => []
  | f :: rest =>
      f :: (if is_live && (AppMain.f_key f =? 27) then []
            else shown is_live rest)
  end.

(** No person found without helmet in the frames [fs] has an empty crop
    on frames of [rows] by [cols] pixels. *)
Definition crops_fit (rows cols : Z) (thresholds : gmap string Q)
    (fs : list AppMain.frame) : Prop :=
  Forall (λ f, Forall (λ p, AppMain.crop_empty rows cols p = false)
                      (unequipped_persons thresholds f)) fs.

(** The records of the last of a list of frames (none for no frame). *)
Definition last_boxes (fs : list AppMain.frame) : list raw_box :=
  match last fs with
  | Some f => default [] (AppMain.f_boxes f)
  | None => []
  end.

(** A clock that advances ten seconds per reading, from 0. *)
Definition clock_ten_seconds (n : nat) : Q := inject_Z (10 * Z.of_nat n).

(** The indices, counted from [k], of the frames that [flag] holds of. *)
Fixpoint flagged_from {F} (flag : F -> bool) (k : Z) (fs : list F) : list Z :=
  match fs with
  | [] => []
  | f :: rest => (if flag f then [k] else []) ++ flagged_from flag (k + 1) rest
  end.

(* ===================================================================== *)
(** ** Facts about the geometry utility                                  *)
(* ===================================================================== *)

Section GeometryFacts.

Lemma interArea_nonneg A B : 0 <= interArea A B.
Proof. unfold interArea; cbv zeta; nia. Qed.

Lemma interArea_comm A B : interArea A B = interArea B A.
Proof.
  unfold interArea; cbv zeta.
  by rewrite (Z.max_comm (bx1 A)), (Z.max_comm (by1 A)),
             (Z.min_comm (bx2 A)), (Z.min_comm (by2 A)).
Qed.

(** The intersection rectangle is non-empty exactly when both of its
    sides are positive. *)
Lemma interArea_pos_sides A B :
  0 < interArea A B ->
  Z.max (bx1 A) (bx1 B) < Z.min (bx2 A) (bx2 B) /\
  Z.max (by1 A) (by1 B) < Z.min (by2 A) (by2 B).
Proof. unfold interArea; cbv zeta; nia. Qed.

Lemma interArea_le_l A B : 0 < interArea A B -> interArea A B <= boxArea A.
Proof.
  intros H. destruct (interArea_pos_sides _ _ H) as [Hx Hy].
  unfold interArea, boxArea; cbv zeta.
  rewrite !Z.max_r by lia.
  apply Z.mul_le_mono_nonneg; lia.
Qed.

Lemma interArea_le_r A B : 0 < interArea A B -> interArea A B <= boxArea B.
Proof. rewrite interArea_comm. apply interArea_le_l. Qed.

Lemma interArea_self A : ~ degenerate A -> interArea A A = boxArea A.
Proof.
  unfold degenerate, interArea, boxArea; cbv zeta; intros H.
  rewrite !Z.max_id, !Z.min_id, !Z.max_r by lia. done.
Qed.

Lemma boxArea_pos A : ~ degenerate A -> 0 < boxArea A.
Proof. unfold degenerate, boxArea; intros H; nia. Qed.

Lemma interArea_degenerate_l A B : degenerate A -> interArea A B = 0.
Proof. unfold degenerate, interArea; cbv zeta; intros [H|H]; nia. Qed.

Lemma interArea_disjoint A B : disjoint A B -> interArea A B = 0.
Proof.
  intros Hd. destruct (Z.eq_dec (interArea A B) 0) as [|Hne]; [done|].
  assert (Hpos : 0 < interArea A B) by (pose proof (interArea_nonneg A B); lia).
  destruct (interArea_pos_sides _ _ Hpos) as [Hx Hy].
  exfalso. apply (Hd (Z.max (bx1 A) (bx1 B)) (Z.max (by1 A) (by1 B))).
  unfold covers; lia.
Qed.

Lemma truediv_bounds n d :
  0 < n <= d ->
  exists q, truediv n d = Some q /\ (0 < q)%Q /\ (q <= 1)%Q.
Proof.
  intros [Hn Hd]. unfold truediv.
  destruct (Z.eqb_spec d 0) as [->|Hnz]; [lia|].
  eexists; split; [reflexivity|].
  destruct d as [|d|d]; try lia.
  unfold Qdiv, Qinv, Qmult, Qlt, Qle, inject_Z; simpl. lia.
Qed.

Lemma truediv_self n :
  0 < n -> exists q, truediv n n = Some q /\ (q == 1)%Q.
Proof.
  intros Hn. unfold truediv.
  destruct (Z.eqb_spec n 0) as [->|Hnz]; [lia|].
  eexists; split; [reflexivity|].
  apply Qmult_inv_r. unfold Qeq, inject_Z; simpl. lia.
Qed.

End GeometryFacts.

(* ===================================================================== *)
(** ** The geometry utility is total, bounded and symmetric              *)
(* ===================================================================== *)

Section IouProperties.

Lemma iou_zero A B : interArea A B = 0 -> iou A B = Some 0%Q.
Proof. unfold iou; cbv zeta. by intros ->. Qed.

Lemma iou_pos A B :
  0 < interArea A B ->
  exists q, iou A B = Some q /\ (0 < q)%Q /\ (q <= 1)%Q.
Proof.
  intros Hpos. unfold iou; cbv zeta.
  destruct (Z.eqb_spec (interArea A B) 0) as [?|_]; [lia|].
  apply truediv_bounds.
  pose proof (interArea_le_l _ _ Hpos). pose proof (interArea_le_r _ _ Hpos).
  lia.
Qed.

Lemma iou_total_bounded_aux A B :
  exists q, iou A B = Some q /\ (0 <= q)%Q /\ (q <= 1)%Q.
Proof.
  pose proof (interArea_nonneg A B) as Hnn.
  destruct (Z.eq_dec (interArea A B) 0) as [H0|Hne].
  - exists 0%Q. split; [by apply iou_zero|]. split; [apply Qle_refl|done].
  - destruct (iou_pos A B) as (q & Hq & Hlo & Hhi); [lia|].
    exists q. split; [done|]. split; [by apply Qlt_le_weak|done].
Qed.

(** C7: [iou] returns a value for every pair of boxes (the division is
    never by zero: a positive intersection area forces both box areas,
    and hence the denominator, to be positive), the value lies in
    [[0,1]], and it is [0] as soon as one of the boxes is degenerate. *)
Theorem iou_total_bounded (A B : box) :
  (exists q, iou A B = Some q /\ (0 <= q)%Q /\ (q <= 1)%Q) /\
  (0 < interArea A B ->
     0 < boxArea A /\ 0 < boxArea B /\
     0 < boxArea A + boxArea B - interArea A B) /\
  (degenerate A \/ degenerate B -> iou A B = Some 0%Q).
Proof.
  split; [|split].
  - apply iou_total_bounded_aux.
  - intros Hpos.
    pose proof (interArea_le_l _ _ Hpos). pose proof (interArea_le_r _ _ Hpos).
    lia.
  - intros [HA|HB]; apply iou_zero.
    + by apply interArea_degenerate_l.
    + rewrite interArea_comm. by apply interArea_degenerate_l.
Qed.

Lemma iou_total_bounded_witness :
  degenerate (Box 5 5 5 9) /\ iou (Box 5 5 5 9) (Box 0 0 10 10) = Some 0%Q.
Proof.
  assert (Hd : degenerate (Box 5 5 5 9)) by (left; simpl; lia).
  split; [exact Hd|].
  destruct (iou_total_bounded (Box 5 5 5 9) (Box 0 0 10 10)) as (_ & _ & H).
  apply H. left. exact Hd.
Defined.

(** C8: [iou] is symmetric, is [0] for boxes that share no pixel, and is
    [1] for a non-degenerate box paired with itself. *)
Theorem iou_symmetric_disjoint_identical (A B : box) :
  iou A B = iou B A /\
  (disjoint A B -> iou A B = Some 0%Q) /\
  (~ degenerate A -> exists q, iou A A = Some q /\ (q == 1)%Q).
Proof.
  split; [|split].
  - unfold iou; cbv zeta. rewrite (interArea_comm B A).
    by rewrite (Z.add_comm (boxArea B)).
  - intros Hd. apply iou_zero. by apply interArea_disjoint.
  - intros Hnd. unfold iou; cbv zeta.
    rewrite (interArea_self _ Hnd). pose proof (boxArea_pos _ Hnd) as Hpos.
    destruct (Z.eqb_spec (boxArea A) 0) as [?|_]; [lia|].
    replace (boxArea A + boxArea A - boxArea A) with (boxArea A) by lia.
    by apply truediv_self.
Qed.

Lemma iou_symmetric_disjoint_identical_witness :
  disjoint (Box 0 0 10 10) (Box 20 0 30 10) /\
  iou (Box 0 0 10 10) (Box 20 0 30 10) = Some 0%Q /\
  exists q, iou (Box 0 0 10 10) (Box 0 0 10 10) = Some q /\ (q == 1)%Q.
Proof.
  assert (Hd : disjoint (Box 0 0 10 10) (Box 20 0 30 10))
    by (intros x y; unfold covers; simpl; lia).
  assert (Hn : ~ degenerate (Box 0 0 10 10))
    by (unfold degenerate; simpl; lia).
  destruct (iou_symmetric_disjoint_identical (Box 0 0 10 10) (Box 20 0 30 10))
    as (_ & H0 & H1).
  split; [exact Hd|]. split; [exact (H0 Hd)|exact (H1 Hn)].
Defined.

End IouProperties.

(* ===================================================================== *)
(** ** Association of persons with hardhats                              *)
(* ===================================================================== *)

Section Association.

Lemma Qlt_bool_iff x y : Qlt_bool x y = true <-> (x < y)%Q.
Proof.
  unfold Qlt_bool. rewrite negb_true_iff. split.
  - intros H. apply Qnot_le_lt. intros Hle.
    apply Qle_bool_iff in Hle. congruence.
  - intros H. destruct (Qle_bool y x) eqn:E; [|done].
    apply Qle_bool_iff in E. exfalso. by eapply Qlt_not_le.
Qed.

Lemma iou_total A B : exists q, iou A B = Some q.
Proof. destruct (iou_total_bounded_aux A B) as (q & Hq & _). by exists q. Qed.

Lemma has_helmet_spec person_box hardhats :
  exists equipped,
    AppMain.has_helmet person_box hardhats = Some equipped /\
    (equipped = true <->
     exists h q, h ∈ hardhats /\ iou person_box h = Some q /\ (2#10 < q)%Q).
Proof.
  induction hardhats as [|h rest (e & He & Hiff)]; simpl.
  - exists false. split; [done|]. split; [done|].
    intros (h & q & Hin & _). by apply elem_of_nil in Hin.
  - destruct (iou_total person_box h) as [q Hq]. rewrite Hq; simpl.
    destruct (Qlt_bool (2#10) q) eqn:Hgt.
    + exists true. split; [done|]. split; [|done].
      intros _. exists h, q. split; [left|]. split; [done|].
      by apply Qlt_bool_iff.
    + exists e. split; [done|]. rewrite Hiff. split.
      * intros (h' & q' & Hin & Hq' & Hlt). exists h', q'.
        split; [by right|done].
      * intros (h' & q' & Hin & Hq' & Hlt).
        apply elem_of_cons in Hin as [->|Hin].
        -- rewrite Hq in Hq'. injection Hq' as <-.
           apply Qlt_bool_iff in Hlt. congruence.
        -- by exists h', q'.
Qed.

End Association.

(* ===================================================================== *)
(** ** Detection ingestion                                               *)
(* ===================================================================== *)

Section Ingestion.

Implicit Types (thresholds : gmap string Q) (d : gmap string (list box)).

Lemma selected_nil thresholds label : selected thresholds label [] = [].
Proof. done. Qed.

Lemma selected_cons thresholds label rb bs :
  selected thresholds label (rb :: bs) =
  (if (rb_label rb =? label)%string && AppMain.passes thresholds rb
   then [rb_box rb] else []) ++ selected thresholds label bs.
Proof.
  unfold selected; simpl.
  by destruct ((rb_label rb =? label)%string && AppMain.passes thresholds rb).
Qed.

Lemma elem_of_selected thresholds label bs b :
  b ∈ selected thresholds label bs <->
  exists rb, rb ∈ bs /\ rb_label rb = label /\ rb_box rb = b /\
             AppMain.passes thresholds rb = true.
Proof.
  unfold selected. rewrite list_elem_of_fmap. split.
  - intros (rb & -> & Hin). apply list_elem_of_In, filter_In in Hin as [Hin Hf].
    apply andb_true_iff in Hf as [Hl Hp]. apply String.eqb_eq in Hl.
    exists rb. by rewrite list_elem_of_In.
  - intros (rb & Hin & Hl & Hb & Hp). exists rb. split; [done|].
    apply list_elem_of_In, filter_In. split; [by apply list_elem_of_In|].
    apply andb_true_iff. split; [by apply String.eqb_eq|done].
Qed.

Lemma ingest_box_pass thresholds d rb l0 :
  AppMain.passes thresholds rb = true ->
  d !! rb_label rb = Some l0 ->
  AppMain.ingest_box thresholds d rb
  = Some (<[rb_label rb := l0 ++ [rb_box rb]]> d).
Proof. intros Hp Hl. unfold AppMain.ingest_box. by rewrite Hp, Hl. Qed.

Lemma ingest_box_skip thresholds d rb :
  AppMain.passes thresholds rb = false ->
  AppMain.ingest_box thresholds d rb = Some d.
Proof. intros Hp. unfold AppMain.ingest_box. by rewrite Hp. Qed.

(** The loop of lines 119-125, started on any dictionary that has a key
    for every record passing the guard. *)
Lemma ingest_loop thresholds bs : forall d,
  (forall rb, rb ∈ bs -> AppMain.passes thresholds rb = true ->
              is_Some (d !! rb_label rb)) ->
  exists d', foldM (AppMain.ingest_box thresholds) d bs = Some d' /\
    forall label,
      d' !! label = (λ old, old ++ selected thresholds label bs) <$> d !! label.
Proof.
  induction bs as [|rb bs IH]; intros d Hkeys; cbn [foldM].
  - exists d. split; [done|]. intros label. rewrite selected_nil.
    destruct (d !! label); simpl; [by rewrite app_nil_r|done].
  - destruct (AppMain.passes thresholds rb) eqn:Hp.
    + destruct (Hkeys rb) as [l0 Hl0]; [by left|done|].
      rewrite (ingest_box_pass _ _ _ _ Hp Hl0); cbn [mbind option_bind].
      destruct (IH (<[rb_label rb := l0 ++ [rb_box rb]]> d)) as (d' & Hd' & Hlk).
      { intros rb' Hin Hp'. apply lookup_insert_is_Some'. right.
        apply Hkeys; [by right|done]. }
      exists d'. split; [done|]. intros label. rewrite Hlk, selected_cons, Hp.
      destruct (decide (rb_label rb = label)) as [<-|Hne].
      * rewrite lookup_insert_eq, Hl0, String.eqb_refl; simpl.
        by rewrite <- app_assoc.
      * rewrite lookup_insert_ne by done.
        apply String.eqb_neq in Hne. by rewrite Hne.
    + rewrite (ingest_box_skip _ _ _ Hp); cbn [mbind option_bind].
      destruct (IH d) as (d' & Hd' & Hlk).
      { intros rb' Hin Hp'. apply Hkeys; [by right|done]. }
      exists d'. split; [done|]. intros label.
      by rewrite Hlk, selected_cons, Hp, andb_false_r.
Qed.

(** Line 116 keeps the keys and empties every list. *)
Lemma reset_lookup d label :
  ((λ _, []) <$> d) !! label = (λ _ : list box, @nil box) <$> d !! label.
Proof. apply lookup_fmap. Qed.

Lemma passes_configured thresholds rb :
  AppMain.passes thresholds rb = true <->
  exists t, thresholds !! rb_label rb = Some t /\ (t <= rb_conf rb)%Q.
Proof.
  unfold AppMain.passes. destruct (thresholds !! rb_label rb) as [t|].
  - rewrite Qle_bool_iff. split; [by exists t|by intros (? & [= <-] & ?)].
  - split; [done|by intros (? & ? & ?)].
Qed.

Lemma ingest_frame thresholds d boxes :
  dom d = dom AppMain.detections0 ->
  dom thresholds ⊆ dom AppMain.detections0 ->
  exists set,
    AppMain.ingest thresholds ((λ _, []) <$> d) boxes = Some set /\
    dom set = dom AppMain.detections0 /\
    forall label,
      label ∈ dom AppMain.detections0 ->
      set !! label = Some (selected thresholds label (default [] boxes)).
Proof.
  intros Hdom Hth.
  assert (Hsome : forall label, label ∈ dom AppMain.detections0 ->
                    ((λ _, []) <$> d) !! label = Some (@nil box)).
  { intros label Hin. rewrite reset_lookup. rewrite <- Hdom in Hin.
    apply elem_of_dom in Hin as [l ->]. done. }
  assert (Hnone : forall label, label ∉ dom AppMain.detections0 ->
                    ((λ _, []) <$> d) !! label = (None : option (list box))).
  { intros label Hin. rewrite reset_lookup. rewrite <- Hdom in Hin.
    apply not_elem_of_dom in Hin. by rewrite Hin. }
  destruct boxes as [bs|]; simpl.
  - destruct (ingest_loop thresholds bs ((λ _, []) <$> d)) as (set & Hset & Hlk).
    { intros rb _ Hp. apply passes_configured in Hp as (t & Ht & _).
      rewrite Hsome; [done|]. apply Hth. apply elem_of_dom. by exists t. }
    exists set. split; [done|]. split.
    + apply set_eq. intros label. rewrite elem_of_dom, Hlk.
      destruct (decide (label ∈ dom AppMain.detections0)) as [Hin|Hin].
      * rewrite (Hsome _ Hin). simpl. split; [done|by intros _; eexists].
      * rewrite (Hnone _ Hin). simpl. split; [by intros [? ?]|done].
    + intros label Hin. by rewrite Hlk, (Hsome _ Hin).
  - exists ((λ _, []) <$> d). split; [done|]. split.
    + by rewrite dom_fmap_L.
    + intros label Hin. by rewrite (Hsome _ Hin).
Qed.

Lemma dom_thresholds_ui :
  dom AppMain.thresholds_ui = dom AppMain.detections0.
Proof.
  unfold AppMain.thresholds_ui, AppMain.detections0.
  by rewrite !dom_insert_L, !dom_singleton_L.
Qed.

(** C2 (amended): started on a dictionary with the four tracked keys and
    with thresholds configured for tracked classes only, ingestion
    succeeds and files under each tracked label exactly the boxes of the
    records with that label whose label has a configured threshold that
    the confidence reaches, in detector order. So a record reaching its
    configured threshold appears, every box that appears comes from such
    a record, and a record whose label has no configured threshold, or
    whose confidence is below it, is dropped. *)
Theorem ingest_keeps_configured
    (thresholds : gmap string Q) (prev : gmap string (list box))
    (boxes : list raw_box) :
  dom prev = dom AppMain.detections0 ->
  dom thresholds ⊆ dom AppMain.detections0 ->
  exists set,
    AppMain.ingest thresholds ((λ _, []) <$> prev) (Some boxes) = Some set /\
    (forall label, label ∈ dom AppMain.detections0 ->
       set !! label = Some (selected thresholds label boxes)) /\
    (forall rb, rb ∈ boxes ->
       (exists t, thresholds !! rb_label rb = Some t /\ (t <= rb_conf rb)%Q) ->
       exists l, set !! rb_label rb = Some l /\ rb_box rb ∈ l) /\
    (forall label l b, set !! label = Some l -> b ∈ l ->
       exists rb t, rb ∈ boxes /\ rb_label rb = label /\ rb_box rb = b /\
                    thresholds !! label = Some t /\ (t <= rb_conf rb)%Q).
Proof.
  intros Hdom Hth.
  destruct (ingest_frame thresholds prev (Some boxes) Hdom Hth)
    as (set & Hset & Hds & Hlk).
  simpl in Hlk. exists set. split; [done|]. split; [done|]. split.
  - intros rb Hin (t & Ht & Hle).
    assert (Hp : AppMain.passes thresholds rb = true)
      by (apply passes_configured; by exists t).
    exists (selected thresholds (rb_label rb) boxes). split.
    + apply Hlk, Hth, elem_of_dom. by exists t.
    + apply elem_of_selected. by exists rb.
  - intros label l b Hl Hb.
    assert (Hin : label ∈ dom AppMain.detections0)
      by (rewrite <- Hds; apply elem_of_dom; by exists l).
    rewrite (Hlk _ Hin) in Hl. injection Hl as <-.
    apply elem_of_selected in Hb as (rb & Hrb & <- & <- & Hp).
    apply passes_configured in Hp as (t & Ht & Hle).
    by exists rb, t.
Qed.

Lemma ingest_keeps_configured_witness :
  exists set,
    AppMain.ingest AppMain.thresholds_ui
      ((λ _, []) <$> AppMain.detections0)
      (Some [RawBox "Person" (Box 0 0 10 20) (9#10);
             RawBox "Hardhat" (Box 2 0 8 5) (3#10)]) = Some set /\
    set !! "Person" = Some [Box 0 0 10 20] /\
    set !! "Hardhat" = Some [].
Proof.
  destruct (ingest_keeps_configured AppMain.thresholds_ui AppMain.detections0
              [RawBox "Person" (Box 0 0 10 20) (9#10);
               RawBox "Hardhat" (Box 2 0 8 5) (3#10)])
    as (set & Hset & Hlk & _).
  - reflexivity.
  - rewrite dom_thresholds_ui. reflexivity.
  - exists set. split; [exact Hset|]. split.
    + rewrite Hlk; [reflexivity|]. apply elem_of_dom. by eexists.
    + rewrite Hlk; [reflexivity|]. apply elem_of_dom. by eexists.
Defined.

(** The restriction to thresholds for tracked classes is needed: a
    threshold configured for another label makes line 125 raise. *)
Example ingest_untracked_threshold_raises :
  AppMain.ingest {[ "NO-Mask" := (1#2)%Q ]} ((λ _, []) <$> AppMain.detections0)
    (Some [RawBox "NO-Mask" (Box 0 0 10 10) (9#10)]) = None.
Proof. reflexivity. Qed.

(** C2 as stated fails: with the thresholds the interface configures, a
    confident record of the untracked class ["NO-Mask"] has no configured
    threshold, so the wording passes it through, yet it is in no list of
    the frame's detection set. *)
Lemma ingest_drops_unconfigured_label :
  let rb := RawBox "NO-Mask" (Box 0 0 10 10) (9#10) in
  AppMain.thresholds_ui !! rb_label rb = None /\
  Spec.passes AppMain.thresholds_ui rb = true /\
  exists set,
    frame_set AppMain.thresholds_ui (AppMain.Frame (Some [rb]) 0) = Some set /\
    forall label l, set !! label = Some l -> rb_box rb ∉ l.
Proof.
  cbv zeta. split; [reflexivity|]. split; [reflexivity|].
  exists ((λ _, []) <$> AppMain.detections0). split; [reflexivity|].
  intros label l Hl. rewrite lookup_fmap in Hl.
  destruct (AppMain.detections0 !! label); simpl in Hl; [|done].
  injection Hl as <-. apply not_elem_of_nil.
Qed.

End Ingestion.

(* ===================================================================== *)
(** ** A session of [app_main.py] runs to its summary                    *)
(* ===================================================================== *)

Section SessionRuns.

Import AppMain.

Variable clock : nat -> Q.
Variable thresholds : gmap string Q.
Variables rows cols : Z.
Hypothesis thresholds_tracked : dom thresholds ⊆ dom detections0.

Lemma tracked_lookup d label :
  tracked d -> label ∈ dom detections0 -> is_Some (d !! label).
Proof. intros Hd Hin. rewrite <- Hd in Hin. by apply elem_of_dom. Qed.

Lemma tracked_keys :
  "Person" ∈ dom detections0 /\
  "Hardhat" ∈ dom detections0 /\
  "Face Mask" ∈ dom detections0 /\
  "Safety Vest" ∈ dom detections0.
Proof. repeat split; apply elem_of_dom; by eexists. Qed.

(** A box with a pixel inside the frame has a crop that is not empty. *)
Lemma crop_not_empty_inside (b : box) :
  0 <= bx1 b < bx2 b -> bx1 b < cols ->
  0 <= by1 b < by2 b -> by1 b < rows ->
  crop_empty rows cols b = false.
Proof.
  intros Hx Hxc Hy Hyr. unfold crop_empty, slice_len, slice_index.
  apply orb_false_iff. split; apply Z.eqb_neq.
  - destruct (Z.ltb_spec (by2 b) 0), (Z.ltb_spec (by1 b) 0); lia.
  - destruct (Z.ltb_spec (bx2 b) 0), (Z.ltb_spec (bx1 b) 0); lia.
Qed.

(** A degenerate box with no negative coordinate has an empty crop. *)
Lemma crop_empty_degenerate (b : box) :
  degenerate b -> 0 <= bx1 b -> 0 <= bx2 b -> 0 <= by1 b -> 0 <= by2 b ->
  crop_empty rows cols b = true.
Proof.
  intros Hd Hx1 Hx2 Hy1 Hy2. unfold crop_empty, slice_len, slice_index.
  apply orb_true_iff.
  destruct (Z.ltb_spec (by2 b) 0), (Z.ltb_spec (by1 b) 0),
           (Z.ltb_spec (bx2 b) 0), (Z.ltb_spec (bx1 b) 0); try lia.
  destruct Hd as [Hd|Hd]; [right|left]; apply Z.eqb_eq; lia.
Qed.

(** One person of the loop of lines 130-143: equipped, the state is
    untouched; not equipped and the crop empty, line 136 raises; else the
    alert is counted and the gate consulted. *)
Lemma process_person_step st person_box hardhats :
  detections st !! "Hardhat" = Some hardhats ->
  exists e,
    has_helmet person_box hardhats = Some e /\
    if e then process_person clock rows cols st person_box = Some st
    else if crop_empty rows cols person_box
    then process_person clock rows cols st person_box = None
    else
      exists st',
        process_person clock rows cols st person_box = Some st' /\
        detections st' = detections st /\
        frame_idx st' = frame_idx st /\
        alert_count st' = alert_count st + 1 /\
        let gate := throttle (last_capture_time st) (clock (ticks st)) in
        last_capture_time st' = snd gate /\
        log st' = log st ++ (if fst gate
                             then [WriteViolation (frame_idx st) person_box]
                             else []).
Proof.
  intros Hh. destruct (has_helmet_spec person_box hardhats) as (e & He & _).
  exists e. split; [done|].
  unfold process_person. rewrite Hh; cbn [mbind option_bind].
  rewrite He; cbn [mbind option_bind].
  destruct e; [done|].
  destruct (crop_empty rows cols person_box); [done|].
  destruct (throttle _ _) as [[] last'] eqn:Hg; eexists;
    (split; [done|]); simpl; repeat split; try done.
  by rewrite app_nil_r.
Qed.

Lemma unequipped_among_cons hardhats p persons e :
  has_helmet p hardhats = Some e ->
  unequipped_among hardhats (p :: persons)
  = (if e then [] else [p]) ++ unequipped_among hardhats persons.
Proof. intros He. unfold unequipped_among; simpl. rewrite He. by destruct e. Qed.

Lemma persons_loop_spec hardhats persons : forall st,
  detections st !! "Hardhat" = Some hardhats ->
  Forall (λ p, crop_empty rows cols p = false)
         (unequipped_among hardhats persons) ->
  exists st' writes,
    foldM (process_person clock rows cols) st persons = Some st' /\
    detections st' = detections st /\
    frame_idx st' = frame_idx st /\
    alert_count st' = alert_count st + len (unequipped_among hardhats persons) /\
    log st' = log st ++ writes /\
    Forall (λ e, exists p, e = WriteViolation (frame_idx st) p /\
                           p ∈ unequipped_among hardhats persons) writes /\
    ((forall n, (clock n - clock 0%nat <= 8)%Q) ->
     last_capture_time st = clock 0%nat ->
     last_capture_time st' = clock 0%nat /\ writes = []).
Proof.
  induction persons as [|p persons IH]; intros st Hh Hfit; cbn [foldM].
  - exists st, []. repeat split; try done.
    + unfold len; simpl. lia.
    + by rewrite app_nil_r.
  - destruct (process_person_step st p hardhats Hh) as (e & He & Hstep).
    rewrite (unequipped_among_cons _ _ _ _ He) in Hfit |- *.
    destruct e.
    + rewrite Hstep; cbn [mbind option_bind].
      destruct (IH st Hh Hfit) as (st' & ws & -> & Hd & Hi & Ha & Hl & Hws & Hq).
      by exists st', ws.
    + cbn [app] in Hfit. apply Forall_cons in Hfit as [Hp Hfit].
      rewrite Hp in Hstep.
      destruct Hstep as (st1 & -> & Hd1 & Hi1 & Ha1 & Hlast1 & Hlog1).
      cbn [mbind option_bind].
      destruct (IH st1) as (st' & ws & -> & Hd & Hi & Ha & Hl & Hws & Hq);
        [by rewrite Hd1|done|].
      eexists st', _. split; [done|]. split; [congruence|].
      split; [congruence|]. split.
      { rewrite Ha, Ha1. unfold len. simpl length. lia. }
      split; [rewrite Hl, Hlog1, <- app_assoc; reflexivity|]. split.
      * apply Forall_app. split.
        -- destruct (fst (throttle _ _)); [|done].
           constructor; [|done]. exists p. split; [done|by left].
        -- rewrite <- Hi1. eapply Forall_impl; [exact Hws|].
           intros ev (p' & -> & Hp'). exists p'. split; [done|by right].
      * intros Hquiet Hlast.
        assert (Hshut : throttle (last_capture_time st) (clock (ticks st))
                        = (false, last_capture_time st)).
        { unfold throttle. rewrite Hlast.
          destruct (Qlt_bool 8 (clock (ticks st) - clock 0%nat)) eqn:E; [|done].
          apply Qlt_bool_iff in E. exfalso.
          by eapply Qlt_not_le; [exact E|apply Hquiet]. }
        rewrite Hshut in Hlast1. simpl in Hlast1. rewrite Hshut. simpl.
        destruct Hq as [Hq1 ->]; [done|congruence|]. done.
Qed.

(** The loop raises as soon as a person without helmet has an empty crop. *)
Lemma persons_loop_raises hardhats persons : forall st,
  detections st !! "Hardhat" = Some hardhats ->
  Exists (λ p, crop_empty rows cols p = true)
         (unequipped_among hardhats persons) ->
  foldM (process_person clock rows cols) st persons = None.
Proof.
  induction persons as [|p persons IH]; intros st Hh Hbad; cbn [foldM].
  - by apply Exists_nil in Hbad.
  - destruct (process_person_step st p hardhats Hh) as (e & He & Hstep).
    rewrite (unequipped_among_cons _ _ _ _ He) in Hbad.
    destruct e.
    + rewrite Hstep; cbn [mbind option_bind]. by apply IH.
    + cbn [app] in Hbad.
      destruct (crop_empty rows cols p) eqn:Hp; [by rewrite Hstep|].
      apply Exists_cons in Hbad as [Hbad|Hbad]; [congruence|].
      destruct Hstep as (st1 & -> & Hd1 & _). cbn [mbind option_bind].
      apply IH; [by rewrite Hd1|done].
Qed.

Lemma crops_fit_or_not (ps : list box) :
  Forall (λ p, crop_empty rows cols p = false) ps \/
  Exists (λ p, crop_empty rows cols p = true) ps.
Proof.
  induction ps as [|p ps [IH|IH]]; [by left| |by right; right].
  destruct (crop_empty rows cols p) eqn:Hp; [right; by left|left; by constructor].
Qed.

(** One iteration of the loop of lines 107-157. *)
Lemma process_frame_spec st f :
  tracked (detections st) ->
  Forall (λ p, crop_empty rows cols p = false)
         (unequipped_persons thresholds f) ->
  exists st' writes,
    process_frame clock thresholds rows cols st f = Some st' /\
    tracked (detections st') /\
    (forall label, label ∈ dom detections0 ->
       detections st' !! label
       = Some (selected thresholds label (default [] (f_boxes f)))) /\
    frame_idx st' = frame_idx st + 1 /\
    alert_count st' = alert_count st + len (unequipped_persons thresholds f) /\
    log st' = log st ++ writes /\
    Forall (λ e, exists p, e = WriteViolation (frame_idx st + 1) p /\
                           p ∈ unequipped_persons thresholds f) writes /\
    ((forall n, (clock n - clock 0%nat <= 8)%Q) ->
     last_capture_time st = clock 0%nat ->
     last_capture_time st' = clock 0%nat /\ writes = []).
Proof.
  intros Hd Hfit. unfold process_frame.
  destruct (ingest_frame thresholds (detections st) (f_boxes f) Hd
              thresholds_tracked) as (set & -> & Hset & Hlk).
  cbn [mbind option_bind].
  destruct tracked_keys as (Kp & Kh & Km & Kv).
  rewrite (Hlk _ Kp); cbn [mbind option_bind].
  match goal with
  | |- context [foldM _ ?s0 ?ps] =>
      destruct (persons_loop_spec
                  (selected thresholds "Hardhat" (default [] (f_boxes f)))
                  ps s0)
        as (st' & ws & -> & Hd' & Hi' & Ha' & Hl' & Hws & Hq)
  end; [simpl; by apply Hlk|exact Hfit|].
  rewrite (Hlk _ Kh), (Hlk _ Km), (Hlk _ Kv). cbn [mbind option_bind].
  simpl in Hd', Hi', Ha', Hl', Hws, Hq.
  exists st', ws. split; [done|]. split; [by rewrite Hd'|].
  split; [intros label Hin; rewrite Hd'; by apply Hlk|].
  split; [done|]. split; [done|]. split; [done|]. split; [done|].
  exact Hq.
Qed.

Lemma process_frame_raises st f :
  tracked (detections st) ->
  Exists (λ p, crop_empty rows cols p = true)
         (unequipped_persons thresholds f) ->
  process_frame clock thresholds rows cols st f = None.
Proof.
  intros Hd Hbad. unfold process_frame.
  destruct (ingest_frame thresholds (detections st) (f_boxes f) Hd
              thresholds_tracked) as (set & -> & Hset & Hlk).
  cbn [mbind option_bind].
  destruct tracked_keys as (Kp & Kh & Km & Kv).
  rewrite (Hlk _ Kp); cbn [mbind option_bind].
  rewrite (persons_loop_raises
             (selected thresholds "Hardhat" (default [] (f_boxes f))));
    [done|simpl; by apply Hlk|exact Hbad].
Qed.

Lemma shown_offline fs : shown false fs = fs.
Proof. induction fs as [|f fs IH]; simpl; [done|by rewrite IH]. Qed.

Lemma total_unequipped_nonneg fs : 0 <= total_unequipped thresholds fs.
Proof. induction fs; simpl; unfold len in *; lia. Qed.

(** The whole loop, from any state it can be in. *)
Lemma run_spec is_live fs : forall st,
  tracked (detections st) ->
  crops_fit rows cols thresholds (shown is_live fs) ->
  exists st' writes,
    run clock is_live thresholds rows cols st fs = Some st' /\
    tracked (detections st') /\
    (forall label, label ∈ dom detections0 ->
       detections st' !! label
       = match last (shown is_live fs) with
         | Some f => Some (selected thresholds label (default [] (f_boxes f)))
         | None => detections st !! label
         end) /\
    frame_idx st' = frame_idx st + len (shown is_live fs) /\
    alert_count st'
    = alert_count st + total_unequipped thresholds (shown is_live fs) /\
    log st' = log st ++ writes /\
    Forall (λ e, exists i f p,
                   shown is_live fs !! i = Some f /\
                   e = WriteViolation (frame_idx st + 1 + Z.of_nat i) p /\
                   p ∈ unequipped_persons thresholds f) writes /\
    ((forall n, (clock n - clock 0%nat <= 8)%Q) ->
     last_capture_time st = clock 0%nat -> writes = []).
Proof.
  induction fs as [|f fs IH]; intros st Hd Hfit; cbn [run shown] in *.
  - exists st, []. repeat split; try done.
    + unfold len; simpl; lia.
    + simpl; lia.
    + by rewrite app_nil_r.
  - apply Forall_cons in Hfit as [Hf Hfit].
    destruct (process_frame_spec st f Hd Hf)
      as (st1 & ws1 & -> & Hd1 & Hlk1 & Hi1 & Ha1 & Hl1 & Hws1 & Hq1).
    cbn [mbind option_bind].
    assert (Hws1' : Forall (λ e, exists i f0 p,
                (f :: (if is_live && (f_key f =? 27) then []
                       else shown is_live fs)) !! i = Some f0 /\
                e = WriteViolation (frame_idx st + 1 + Z.of_nat i) p /\
                p ∈ unequipped_persons thresholds f0) ws1).
    { eapply Forall_impl; [exact Hws1|]. intros e (p & -> & Hp).
      exists 0%nat, f, p. repeat split; try done. simpl. f_equal. lia. }
    destruct (is_live && (f_key f =? 27)).
    + exists st1, ws1. split; [done|]. split; [done|].
      split; [done|]. split; [rewrite Hi1; unfold len; simpl; lia|].
      split; [rewrite Ha1; simpl; lia|]. split; [done|]. split; [done|].
      intros Hquiet Hlast. by apply Hq1.
    + destruct (IH st1 Hd1 Hfit)
        as (st' & ws & -> & Hd' & Hlk & Hi & Ha & Hl & Hws & Hq).
      exists st', (ws1 ++ ws). split; [done|]. split; [done|]. split.
      { intros label Hin. rewrite (Hlk _ Hin), last_cons.
        destruct (last (shown is_live fs)); [done|]. by apply Hlk1. }
      split.
      { rewrite Hi, Hi1. unfold len. simpl length. lia. }
      split; [rewrite Ha, Ha1; simpl; lia|].
      split; [by rewrite Hl, Hl1, <- app_assoc|]. split.
      * apply Forall_app. split; [done|].
        eapply Forall_impl; [exact Hws|]. intros e (i & f0 & p & Hi0 & -> & Hp).
        exists (S i), f0, p. split; [done|]. split; [|done].
        f_equal. lia.
      * intros Hquiet Hlast.
        destruct (Hq1 Hquiet Hlast) as [Hlast1 ->].
        by rewrite (Hq Hquiet Hlast1).
Qed.

(** The loop raises when a processed frame holds a person without helmet
    whose crop is empty. *)
Lemma run_raises is_live fs : forall st,
  tracked (detections st) ->
  Exists (λ f, Exists (λ p, crop_empty rows cols p = true)
                      (unequipped_persons thresholds f))
         (shown is_live fs) ->
  run clock is_live thresholds rows cols st fs = None.
Proof.
  induction fs as [|f fs IH]; intros st Hd Hbad; cbn [run shown] in *.
  - by apply Exists_nil in Hbad.
  - destruct (crops_fit_or_not (unequipped_persons thresholds f)) as [Hf|Hf];
      [|by rewrite (process_frame_raises st f Hd Hf)].
    destruct (process_frame_spec st f Hd Hf) as (st1 & ws1 & -> & Hd1 & _).
    cbn [mbind option_bind].
    apply Exists_cons in Hbad as [Hbad|Hbad].
    { exfalso. apply Exists_exists in Hbad as (p & Hin & Hp).
      rewrite Forall_forall in Hf. rewrite (Hf p Hin) in Hp. done. }
    destruct (is_live && (f_key f =? 27)); [by apply Exists_nil in Hbad|].
    by apply IH.
Qed.

End SessionRuns.

Section SessionSpec.

Import AppMain.

(** Everything [detect_and_process] does on an opened source whose crops
    are never empty. *)
Lemma session_spec clock is_live thresholds cap :
  dom thresholds ⊆ dom detections0 ->
  isOpened cap = true ->
  let fs := shown is_live (frames cap) in
  crops_fit (frame_rows cap) (frame_cols cap) thresholds fs ->
  exists s writes,
    detect_and_process clock is_live thresholds cap
    = Some (Completed (len fs) s,
            [ClearFolder] ++ writes
            ++ [SendEmail (total_unequipped thresholds fs) (len fs) s;
                StSuccessProcessed (len fs) (total_unequipped thresholds fs);
                StSuccessEmail]) /\
    sm_violation_frames s = total_unequipped thresholds fs /\
    sm_persons s = len (selected thresholds "Person" (last_boxes fs)) /\
    sm_hardhats s
    = Z.min (len (selected thresholds "Hardhat" (last_boxes fs))) (sm_persons s) /\
    sm_masks s
    = Z.min (len (selected thresholds "Face Mask" (last_boxes fs))) (sm_persons s) /\
    sm_vests s
    = Z.min (len (selected thresholds "Safety Vest" (last_boxes fs))) (sm_persons s) /\
    Forall (λ e, exists i f p,
                   fs !! i = Some f /\
                   e = WriteViolation (1 + Z.of_nat i) p /\
                   p ∈ unequipped_persons thresholds f) writes /\
    ((forall n, (clock n - clock 0%nat <= 8)%Q) -> writes = []).
Proof.
  intros Hth Hopen fs Hfit.
  destruct (run_spec clock thresholds (frame_rows cap) (frame_cols cap) Hth
              is_live (frames cap) (init clock))
    as (st & ws & Hrun & Hd & Hlk & Hi & Ha & Hl & Hws & Hq); [done|done|].
  fold fs in Hlk, Hi, Ha, Hws.
  assert (Hlast : forall label, label ∈ dom detections0 ->
            detections st !! label
            = Some (selected thresholds label (last_boxes fs))).
  { intros label Hin. rewrite (Hlk _ Hin). unfold last_boxes.
    destruct (last fs); [done|]. simpl.
    apply elem_of_dom in Hin as [l Hl0]. rewrite Hl0. f_equal.
    unfold detections0 in Hl0.
    repeat (apply lookup_insert_Some in Hl0 as [[_ <-]|[_ Hl0]]; [done|]).
    by apply lookup_singleton_Some in Hl0 as [_ <-]. }
  destruct tracked_keys as (Kp & Kh & Km & Kv).
  assert (Hs : summarise st = Some
    (let total_persons := len (selected thresholds "Person" (last_boxes fs)) in
     let total_hardhats :=
       Z.min (len (selected thresholds "Hardhat" (last_boxes fs))) total_persons in
     let total_masks :=
       Z.min (len (selected thresholds "Face Mask" (last_boxes fs))) total_persons in
     let total_vests :=
       Z.min (len (selected thresholds "Safety Vest" (last_boxes fs))) total_persons in
     {| sm_persons := total_persons; sm_hardhats := total_hardhats;
        sm_masks := total_masks; sm_vests := total_vests;
        sm_violation_frames := alert_count st;
        sm_details := deficit Hardhats total_persons total_hardhats
                      ++ deficit FaceMasks total_persons total_masks
                      ++ deficit Vests total_persons total_vests |})).
  { unfold summarise.
    by rewrite (Hlast _ Kp), (Hlast _ Kh), (Hlast _ Km), (Hlast _ Kv). }
  cbv zeta in Hs. simpl in Hi, Ha, Hl.
  eexists _, ws. split.
  { unfold detect_and_process. rewrite Hopen; cbn [negb].
    rewrite Hrun; cbn [mbind option_bind]. rewrite Hs; cbn [mbind option_bind].
    rewrite Hi, Ha, Hl. replace (0 + len fs) with (len fs) by lia.
    replace (0 + total_unequipped thresholds fs)
      with (total_unequipped thresholds fs) by lia.
    reflexivity. }
  cbn [sm_violation_frames sm_persons sm_hardhats sm_masks sm_vests].
  split; [reflexivity|]. split; [done|]. split; [done|].
  split; [done|]. split; [done|]. split.
  - eapply Forall_impl; [exact Hws|].
    intros e (i & f & p & Hf & -> & Hp). exists i, f, p.
    split; [done|]. split; [|done]. simpl. f_equal.
  - intros Hquiet. by apply Hq.
Qed.

(** On an opened source the session raises when a processed frame holds a
    person without helmet whose crop is empty. *)
Lemma session_raises clock is_live thresholds cap :
  dom thresholds ⊆ dom detections0 ->
  isOpened cap = true ->
  Exists (λ f, Exists (λ p, crop_empty (frame_rows cap) (frame_cols cap) p = true)
                      (unequipped_persons thresholds f))
         (shown is_live (frames cap)) ->
  detect_and_process clock is_live thresholds cap = None.
Proof.
  intros Hth Hopen Hbad. unfold detect_and_process. rewrite Hopen; cbn [negb].
  by rewrite (run_raises clock thresholds (frame_rows cap) (frame_cols cap) Hth
                is_live (frames cap) (init clock)).
Qed.

Lemma frames_fit_or_not rows cols thresholds fs :
  crops_fit rows cols thresholds fs \/
  Exists (λ f, Exists (λ p, crop_empty rows cols p = true)
                      (unequipped_persons thresholds f)) fs.
Proof.
  unfold crops_fit.
  induction fs as [|f fs [IH|IH]]; [by left| |by right; right].
  destruct (crops_fit_or_not rows cols (unequipped_persons thresholds f))
    as [Hf|Hf]; [left; by constructor|right; by left].
Qed.

(** A session that completed was on an opened source and met no empty
    crop. *)
Lemma completed_crops_fit clock is_live thresholds cap n s evs :
  dom thresholds ⊆ dom detections0 ->
  detect_and_process clock is_live thresholds cap = Some (Completed n s, evs) ->
  isOpened cap = true /\
  crops_fit (frame_rows cap) (frame_cols cap) thresholds
            (shown is_live (frames cap)).
Proof.
  intros Hth Hrun.
  assert (Hopen : isOpened cap = true).
  { unfold detect_and_process in Hrun. by destruct (isOpened cap). }
  split; [done|].
  destruct (frames_fit_or_not (frame_rows cap) (frame_cols cap) thresholds
              (shown is_live (frames cap))) as [Hfit|Hbad]; [done|].
  by rewrite (session_raises clock is_live thresholds cap Hth Hopen Hbad) in Hrun.
Qed.

End SessionSpec.

(* ===================================================================== *)
(** ** The associator                                                     *)
(* ===================================================================== *)

Section Associator.

Import AppMain.

(** C6: a person is equipped exactly when some hardhat box of the frame
    has an IoU above 0.2 with the person's box, and with no hardhat box in
    the frame nobody is equipped. The verdict is what the loop acts on: an
    equipped person leaves the state as it is, so the same hardhat boxes
    serve the next person (no exclusivity); for a person not equipped
    whose crop is empty, line 136 raises; any other person not equipped
    raises the alert counter and leaves the detections as they are; over
    the persons of a frame, when no such crop is empty, the counter rises by the
    number of persons that no hardhat box overlaps by more than 0.2, each
    judged against all hardhat boxes. *)
Theorem has_helmet_existential (person_box : box) (hardhats : list box) :
  (exists equipped,
     has_helmet person_box hardhats = Some equipped /\
     (equipped = true <->
      exists h q,
        h ∈ hardhats /\ iou person_box h = Some q /\ (2#10 < q)%Q) /\
     forall clock rows cols st,
       detections st !! "Hardhat" = Some hardhats ->
       if equipped
       then process_person clock rows cols st person_box = Some st
       else if crop_empty rows cols person_box
       then process_person clock rows cols st person_box = None
       else
         exists st',
           process_person clock rows cols st person_box = Some st' /\
           alert_count st' = alert_count st + 1 /\
           detections st' = detections st) /\
  has_helmet person_box [] = Some false /\
  (forall clock rows cols st persons,
     detections st !! "Hardhat" = Some hardhats ->
     Forall (λ p, crop_empty rows cols p = false)
            (unequipped_among hardhats persons) ->
     exists st',
       foldM (process_person clock rows cols) st persons = Some st' /\
       alert_count st'
       = alert_count st + len (unequipped_among hardhats persons) /\
       detections st' = detections st).
Proof.
  split; [|split; [done|]].
  - destruct (has_helmet_spec person_box hardhats) as (e & He & Hiff).
    exists e. split; [done|]. split; [done|].
    intros clock rows cols st Hh.
    destruct (process_person_step clock rows cols st person_box hardhats Hh)
      as (e' & He' & Hstep).
    rewrite He in He'. injection He' as <-.
    destruct e; [done|].
    destruct (crop_empty rows cols person_box); [done|].
    destruct Hstep as (st' & Hrun & Hd & _ & Ha & _). by exists st'.
  - intros clock rows cols st persons Hh Hfit.
    destruct (persons_loop_spec clock rows cols hardhats persons st Hh Hfit)
      as (st' & ws & Hrun & Hd & _ & Ha & _).
    by exists st'.
Qed.

Lemma has_helmet_existential_witness :
  exists st',
    process_person (λ _, 0%Q) 480 640 (init (λ _, 0%Q)) (Box 0 0 10 10)
    = Some st' /\
    alert_count st' = 1 /\
    detections st' = detections (init (λ _, 0%Q)).
Proof.
  destruct (has_helmet_existential (Box 0 0 10 10) []) as [(e & He & _ & H) _].
  injection He as <-.
  exact (H (λ _, 0%Q) 480 640 (init (λ _, 0%Q)) eq_refl).
Defined.

End Associator.

(* ===================================================================== *)
(** ** The session summary: clamping and deficit findings                *)
(* ===================================================================== *)

Section SummaryFacts.

Import AppMain.

Lemma elem_of_deficit f what persons have :
  f ∈ deficit what persons have <->
  f = Finding what persons have /\ have < persons.
Proof.
  unfold deficit. destruct (Z.ltb_spec have persons).
  - rewrite list_elem_of_singleton. tauto.
  - split; [by intros ?%elem_of_nil|lia].
Qed.

Lemma summarise_clamped st s :
  summarise st = Some s ->
  (forall what, class_total what s <= sm_persons s) /\
  (forall f, f ∈ sm_details s <->
     f = Finding (fi_what f) (sm_persons s) (class_total (fi_what f) s) /\
     class_total (fi_what f) s < sm_persons s).
Proof.
  unfold summarise. intros H.
  destruct (detections st !! "Person") as [persons|]; [|done].
  destruct (detections st !! "Hardhat") as [hardhats|]; [|done].
  destruct (detections st !! "Face Mask") as [masks|]; [|done].
  destruct (detections st !! "Safety Vest") as [vests|]; [|done].
  simpl in H. injection H as <-. split.
  - intros []; simpl; lia.
  - intros f. cbn [sm_details sm_persons].
    rewrite !elem_of_app, !elem_of_deficit. split.
    + intros [[-> ?]|[[-> ?]|[-> ?]]]; by simpl.
    + intros [Hf Hlt]. destruct (fi_what f); simpl in *; eauto.
Qed.

Lemma completed_inv clock is_live thresholds cap n s evs :
  detect_and_process clock is_live thresholds cap = Some (Completed n s, evs) ->
  exists st,
    run clock is_live thresholds (frame_rows cap) (frame_cols cap)
        (init clock) (frames cap) = Some st /\
    summarise st = Some s /\ n = frame_idx st /\
    evs = log st ++ [SendEmail (alert_count st) (frame_idx st) s;
                     StSuccessProcessed (frame_idx st) (alert_count st);
                     StSuccessEmail].
Proof.
  unfold detect_and_process. destruct (negb (isOpened cap)); [done|].
  destruct (run _ _ _ _ _ _ _) as [st|] eqn:Hrun; [|done]; simpl.
  destruct (summarise st) as [s'|] eqn:Hs; [|done]; simpl.
  intros [= <- <- <-]. by exists st.
Qed.

(** C9: whenever a session ends with a summary, every class total in
    it is at most the person total, and the summary lists a deficit
    finding for a class exactly when the person total exceeds that
    class's clamped total; and a session on an opened source, with
    thresholds for tracked classes, does end with a summary whenever no
    person found without helmet has an empty crop (on which line 136
    would raise), whatever else the frames hold. *)
Theorem summary_clamped_deficits
    (clock : nat -> Q) (is_live : bool) (thresholds : gmap string Q)
    (cap : capture) :
  (forall n s evs,
     detect_and_process clock is_live thresholds cap
     = Some (Completed n s, evs) ->
     (forall what, class_total what s <= sm_persons s) /\
     (forall what,
        Finding what (sm_persons s) (class_total what s) ∈ sm_details s <->
        class_total what s < sm_persons s) /\
     (forall f, f ∈ sm_details s ->
        f = Finding (fi_what f) (sm_persons s) (class_total (fi_what f) s))) /\
  (dom thresholds ⊆ dom detections0 -> isOpened cap = true ->
   crops_fit (frame_rows cap) (frame_cols cap) thresholds
             (shown is_live (frames cap)) ->
   exists n s evs,
     detect_and_process clock is_live thresholds cap
     = Some (Completed n s, evs)).
Proof.
  split.
  - intros n s evs (st & _ & Hs & _)%completed_inv.
    destruct (summarise_clamped st s Hs) as [Hle Hdet].
    split; [done|]. split.
    + intros what. rewrite Hdet. simpl. tauto.
    + intros f Hf. by apply Hdet in Hf as [? _].
  - intros Hth Hopen Hfit.
    destruct (session_spec clock is_live thresholds cap Hth Hopen Hfit)
      as (s & ws & -> & _).
    by do 3 eexists.
Qed.

Lemma summary_clamped_deficits_witness :
  exists n s evs,
    detect_and_process clock_seconds false thresholds_ui
      (Capture true 480 640 [Frame (Some [person_left; hardhat_left]) 0])
    = Some (Completed n s, evs) /\
    class_total Hardhats s <= sm_persons s.
Proof.
  destruct (summary_clamped_deficits clock_seconds false thresholds_ui
              (Capture true 480 640
                 [Frame (Some [person_left; hardhat_left]) 0]))
    as [Hinv Hruns].
  destruct Hruns as (n & s & evs & Hrun).
  - rewrite dom_thresholds_ui. reflexivity.
  - reflexivity.
  - repeat constructor.
  - exists n, s, evs. split; [exact Hrun|].
    destruct (Hinv n s evs Hrun) as (Hle & _). apply Hle.
Defined.

End SummaryFacts.

(* ===================================================================== *)
(** ** Throttled capture of violator crops                               *)
(* ===================================================================== *)

Section Throttle.

Import AppMain.

Lemma throttle_fst last now :
  fst (throttle last now) = true <-> (8 < now - last)%Q.
Proof.
  unfold throttle. destruct (Qlt_bool 8 (now - last)) eqn:E; simpl.
  - by rewrite <- Qlt_bool_iff.
  - rewrite <- Qlt_bool_iff. by rewrite E.
Qed.

(** C3 (amended): the gate fires exactly when strictly more than 8
    seconds separate [now] from the stored time; the stored time is never
    unset, it starts as the clock reading taken when the session starts;
    a firing gate stores [now] in the same step, so a check made within
    the next 8 seconds does not fire; and for a person without helmet,
    line 136 raises before the gate is consulted when the crop is empty,
    and otherwise the crop is written exactly when the gate fires. *)
Theorem throttle_strict_from_session_start (last now : Q) :
  (fst (throttle last now) = true <-> (8 < now - last)%Q) /\
  snd (throttle last now) = (if fst (throttle last now) then now else last) /\
  (forall now', fst (throttle last now) = true -> (now' - now <= 8)%Q ->
     throttle (snd (throttle last now)) now' = (false, now)) /\
  (forall clock, last_capture_time (init clock) = clock 0%nat) /\
  (forall clock rows cols st person_box hardhats,
     detections st !! "Hardhat" = Some hardhats ->
     has_helmet person_box hardhats = Some false ->
     last_capture_time st = last -> clock (ticks st) = now ->
     if crop_empty rows cols person_box
     then process_person clock rows cols st person_box = None
     else
       exists st',
         process_person clock rows cols st person_box = Some st' /\
         last_capture_time st' = snd (throttle last now) /\
         log st' = log st ++ (if fst (throttle last now)
                              then [WriteViolation (frame_idx st) person_box]
                              else [])).
Proof.
  split; [apply throttle_fst|]. split; [|split; [|split]].
  - unfold throttle. by destruct (Qlt_bool 8 (now - last)).
  - intros now' Hfire Hclose. unfold throttle in *.
    destruct (Qlt_bool 8 (now - last)); [|done]. simpl.
    destruct (Qlt_bool 8 (now' - now)) eqn:E; [|done].
    apply Qlt_bool_iff in E. exfalso. by eapply Qlt_not_le.
  - done.
  - intros clock rows cols st person_box hardhats Hh He <- <-.
    unfold process_person. rewrite Hh; simpl. rewrite He; simpl.
    destruct (crop_empty rows cols person_box); [done|].
    destruct (throttle _ _) as [[] last']; simpl.
    + by eexists.
    + eexists. split; [done|]. split; [done|]. by rewrite app_nil_r.
Qed.

Lemma throttle_strict_from_session_start_witness :
  fst (throttle 0 10) = true /\ ((18 - 10 <= 8)%Q) /\
  throttle (snd (throttle 0 10)) 18 = (false, 10%Q) /\
  exists st',
    process_person clock_ten_seconds 480 640 (init clock_ten_seconds)
                   (Box 0 0 10 20) = Some st' /\
    last_capture_time st' = snd (throttle 0 10) /\
    log st' = [ClearFolder] ++ [WriteViolation 0 (Box 0 0 10 20)].
Proof.
  assert (Hfire : fst (throttle 0 10) = true) by reflexivity.
  assert (Hclose : (18 - 10 <= 8)%Q) by (unfold Qle; simpl; lia).
  split; [exact Hfire|]. split; [exact Hclose|].
  destruct (throttle_strict_from_session_start 0 10) as (_ & _ & H & _ & Hp).
  split; [exact (H 18%Q Hfire Hclose)|].
  exact (Hp clock_ten_seconds 480 640 (init clock_ten_seconds) (Box 0 0 10 20)
            [] eq_refl eq_refl eq_refl eq_refl).
Defined.

(** C3 as stated fails twice: exactly 8 seconds after the stored time the
    gate stays shut where the wording opens it, and a session's first
    violation, one second after the start, captures nothing where the
    wording's fresh throttler captures at once. *)
Lemma throttle_not_as_worded :
  fst (throttle 0 8) = false /\
  fst (Spec.should_capture 8 (Some 0%Q) 8) = true /\
  fst (Spec.should_capture 8 None 1) = true /\
  exists s,
    sm_violation_frames s = 1 /\
    detect_and_process clock_seconds false thresholds_ui
      (Capture true 480 640 [Frame (Some [person_left]) 0])
    = Some (Completed 1 s,
            [ClearFolder; SendEmail 1 1 s; StSuccessProcessed 1 1;
             StSuccessEmail]).
Proof.
  split; [reflexivity|]. split; [reflexivity|]. split; [reflexivity|].
  eexists. split; [|vm_compute; reflexivity]. reflexivity.
Qed.

End Throttle.

(* ===================================================================== *)
(** ** Session totals of [app_main.py]                                   *)
(* ===================================================================== *)

Section SessionTotals.

Import AppMain.

(** C1: on a two-frame session, two bare-headed persons in the first
    frame and an empty second frame, the aggregator as worded totals 2
    persons and 1 violating frame, whereas [detect_and_process] reports
    the last frame's 0 persons and counts 2 violations, one per person. *)
Theorem session_totals_last_frame_only :
  let fs := [Frame (Some [person_left; person_right]) 0; Frame (Some []) 0] in
  (exists sets,
     mapM (frame_set thresholds_ui) fs = Some sets /\
     Spec.totals (Spec.session per_person_flagged sets) "Person" = 2 /\
     Spec.violation_frames (Spec.session per_person_flagged sets) = 1 /\
     Spec.frames_processed (Spec.session per_person_flagged sets) = 2) /\
  exists s evs,
    detect_and_process clock_seconds false thresholds_ui
      (Capture true 480 640 fs)
    = Some (Completed 2 s, evs) /\
    sm_persons s = 0 /\ sm_violation_frames s = 2.
Proof.
  cbv zeta. split.
  - eexists. split; [vm_compute; reflexivity|]. by vm_compute.
  - do 2 eexists. split; [vm_compute; reflexivity|]. by vm_compute.
Qed.

End SessionTotals.

(* ===================================================================== *)
(** ** A source that does not open                                       *)
(* ===================================================================== *)

Section StartFailure.

(** C10: when the source does not open, no variant processes a frame:
    [detect_and_process] only clears the folder and shows the error (no
    crop written, no summary mailed), and the [process_video]s only print
    the error and return their failure value (a bare [None], or a [None]
    frame rate with zero counters), whatever frames the source holds. *)
Theorem unopened_source_is_start_failure :
  (forall clock is_live thresholds cap,
     AppMain.isOpened cap = false ->
     AppMain.detect_and_process clock is_live thresholds cap
     = Some (AppMain.StartFailure, [AppMain.ClearFolder; AppMain.StError])) /\
  (forall cap,
     App.isOpened cap = false ->
     App.process_video cap = (None, [App.PrintCannotOpen])) /\
  (forall cap,
     App2.isOpened cap = false ->
     App2.process_video cap = ((None, 0, 0), [App2.PrintCannotOpen])) /\
  (forall cap,
     App3.isOpened cap = false ->
     App3.process_video cap = ((None, 0, 0), [App3.PrintCannotOpen])).
Proof.
  repeat split.
  - intros clock is_live thresholds cap H.
    unfold AppMain.detect_and_process. by rewrite H.
  - intros cap H. unfold App.process_video. by rewrite H.
  - intros cap H. unfold App2.process_video. by rewrite H.
  - intros cap H. unfold App3.process_video. by rewrite H.
Qed.

Lemma unopened_source_is_start_failure_witness :
  AppMain.detect_and_process clock_seconds false AppMain.thresholds_ui
    (AppMain.Capture false 480 640 [AppMain.Frame (Some [person_left]) 0])
  = Some (AppMain.StartFailure, [AppMain.ClearFolder; AppMain.StError]) /\
  App.process_video (App.Capture false 25 [[Some [person_left]]])
  = (None, [App.PrintCannotOpen]) /\
  App2.process_video (App2.Capture false 25 [[Some [person_left]]])
  = ((None, 0, 0), [App2.PrintCannotOpen]).
Proof.
  destruct unopened_source_is_start_failure as (Hm & H1 & H2 & _).
  split; [|split].
  - apply Hm. reflexivity.
  - apply H1. reflexivity.
  - apply H2. reflexivity.
Defined.

End StartFailure.

(* ===================================================================== *)
(** ** Frame-level policies of [app.py], [app2.py] and [app3.py]         *)
(* ===================================================================== *)

Section Policies.

Implicit Types (bs : list raw_box) (f : list (option (list raw_box))).

Lemma count_label_nil label : count_label label [] = 0.
Proof. done. Qed.

Lemma count_label_cons label rb bs :
  count_label label (rb :: bs) =
  (if (rb_label rb =? label)%string then 1 else 0) + count_label label bs.
Proof.
  unfold count_label, len; simpl.
  destruct (rb_label rb =? label)%string; simpl; lia.
Qed.

Lemma count_label_app label bs1 bs2 :
  count_label label (bs1 ++ bs2) = count_label label bs1 + count_label label bs2.
Proof.
  induction bs1 as [|rb bs1 IH]; simpl.
  - rewrite count_label_nil. lia.
  - rewrite !count_label_cons, IH. lia.
Qed.

Lemma count_label_nonneg label bs : 0 <= count_label label bs.
Proof. unfold count_label, len. lia. Qed.

Lemma all_boxes_cons r f : all_boxes (r :: f) = default [] r ++ all_boxes f.
Proof. done. Qed.

(** *** Presence policy: the two flags of [app.py] *)

Lemma App_scan_boxes bs : forall p h,
  fold_left App.scan_box bs (p, h) =
  (p || (0 <? count_label "Person" bs), h || (0 <? count_label "Hardhat" bs)).
Proof.
  induction bs as [|rb bs IH]; intros p h; simpl.
  - by rewrite !orb_false_r.
  - rewrite IH, !count_label_cons.
    pose proof (count_label_nonneg "Person" bs).
    pose proof (count_label_nonneg "Hardhat" bs).
    f_equal.
    + destruct (rb_label rb =? "Person")%string; simpl.
      * symmetry. rewrite orb_true_iff. right. apply Z.ltb_lt. lia.
      * done.
    + destruct (rb_label rb =? "Hardhat")%string; simpl.
      * symmetry. rewrite orb_true_iff. right. apply Z.ltb_lt. lia.
      * done.
Qed.

Lemma App_scan_results f : forall p h,
  fold_left App.scan_result f (p, h) =
  (p || (0 <? count_label "Person" (all_boxes f)),
   h || (0 <? count_label "Hardhat" (all_boxes f))).
Proof.
  induction f as [|r f IH]; intros p h; cbn [fold_left].
  - by rewrite !orb_false_r.
  - rewrite all_boxes_cons, !count_label_app.
    pose proof (count_label_nonneg "Person" (default [] r)).
    pose proof (count_label_nonneg "Hardhat" (default [] r)).
    pose proof (count_label_nonneg "Person" (all_boxes f)).
    pose proof (count_label_nonneg "Hardhat" (all_boxes f)).
    assert (Hor : forall a b, 0 <= a -> 0 <= b ->
              (0 <? a + b) = (0 <? a) || (0 <? b)).
    { intros a b Ha Hb.
      destruct (Z.ltb_spec 0 a), (Z.ltb_spec 0 b), (Z.ltb_spec 0 (a + b));
        simpl; try done; lia. }
    rewrite !Hor by done.
    destruct r as [bs|]; cbn [App.scan_result from_option id].
    + rewrite App_scan_boxes, IH. by rewrite !orb_assoc.
    + rewrite IH, !count_label_nil. done.
Qed.

Lemma App_violating_iff f :
  App.violating f = true <->
  0 < count_label "Person" (all_boxes f) /\
  count_label "Hardhat" (all_boxes f) = 0.
Proof.
  unfold App.violating, App.scan. rewrite App_scan_results; simpl.
  pose proof (count_label_nonneg "Hardhat" (all_boxes f)).
  rewrite andb_true_iff, negb_true_iff, Z.ltb_lt, Z.ltb_ge. lia.
Qed.

(** *** Count-deficit policy: the counters of [app2.py] and [app3.py] *)

Lemma App2_count_boxes bs : forall c,
  App2.person_count (fold_left App2.count_box bs c)
  = App2.person_count c + count_label "Person" bs /\
  App2.hardhat_count (fold_left App2.count_box bs c)
  = App2.hardhat_count c + count_label "Hardhat" bs.
Proof.
  induction bs as [|[label b conf] bs IH]; intros c; simpl.
  - rewrite !count_label_nil. lia.
  - destruct (IH (App2.count_box c (RawBox label b conf))) as [-> ->].
    rewrite !count_label_cons. unfold App2.count_box; simpl.
    destruct (String.eqb_spec label "Person") as [->|_]; [simpl; lia|].
    destruct (String.eqb_spec label "Hardhat") as [->|_]; [simpl; lia|].
    destruct (label =? "Safety Vest")%string; [simpl; lia|].
    destruct ((label =? "Mask")%string || (label =? "NO-Mask")%string);
      simpl; lia.
Qed.

Lemma App2_count_results f : forall c,
  App2.person_count (fold_left App2.count_result f c)
  = App2.person_count c + count_label "Person" (all_boxes f) /\
  App2.hardhat_count (fold_left App2.count_result f c)
  = App2.hardhat_count c + count_label "Hardhat" (all_boxes f).
Proof.
  induction f as [|r f IH]; intros c; cbn [fold_left].
  - change (all_boxes []) with (@nil raw_box). rewrite !count_label_nil. lia.
  - destruct (IH (App2.count_result c r)) as [-> ->].
    rewrite all_boxes_cons, !count_label_app.
    destruct r as [bs|]; cbn [App2.count_result from_option id].
    + destruct (App2_count_boxes bs c) as [-> ->]. lia.
    + rewrite !count_label_nil. lia.
Qed.

Lemma App2_violating_iff f :
  App2.violating f = true <->
  0 < count_label "Person" (all_boxes f) /\
  count_label "Hardhat" (all_boxes f) < count_label "Person" (all_boxes f).
Proof.
  unfold App2.violating, App2.count.
  destruct (App2_count_results f (App2.Counts 0 0 0 0)) as [-> ->]; simpl.
  by rewrite andb_true_iff, !Z.ltb_lt.
Qed.

Lemma App3_scan_boxes bs : forall s,
  App3.person_count (fold_left App3.scan_box bs s)
  = App3.person_count s + count_label "Person" bs /\
  App3.hardhat_count (fold_left App3.scan_box bs s)
  = App3.hardhat_count s + count_label "Hardhat" bs.
Proof.
  induction bs as [|[label b conf] bs IH]; intros s; simpl.
  - rewrite !count_label_nil. lia.
  - destruct (IH (App3.scan_box s (RawBox label b conf))) as [-> ->].
    rewrite !count_label_cons. unfold App3.scan_box; simpl.
    destruct (String.eqb_spec label "Person") as [->|_]; [simpl; lia|].
    destruct (String.eqb_spec label "Hardhat") as [->|_]; simpl; lia.
Qed.

Lemma App3_scan_results f : forall s,
  App3.person_count (fold_left App3.scan_result f s)
  = App3.person_count s + count_label "Person" (all_boxes f) /\
  App3.hardhat_count (fold_left App3.scan_result f s)
  = App3.hardhat_count s + count_label "Hardhat" (all_boxes f).
Proof.
  induction f as [|r f IH]; intros s; cbn [fold_left].
  - change (all_boxes []) with (@nil raw_box). rewrite !count_label_nil. lia.
  - destruct (IH (App3.scan_result s r)) as [-> ->].
    rewrite all_boxes_cons, !count_label_app.
    destruct r as [bs|]; cbn [App3.scan_result from_option id].
    + destruct (App3_scan_boxes bs s) as [-> ->]. lia.
    + rewrite !count_label_nil. lia.
Qed.

Lemma App3_violating_iff f :
  App3.violating f = true <->
  0 < count_label "Person" (all_boxes f) /\
  count_label "Hardhat" (all_boxes f) < count_label "Person" (all_boxes f).
Proof.
  unfold App3.violating, App3.scan_frame.
  destruct (App3_scan_results f (App3.Scan 0 0 [])) as [-> ->]; simpl.
  by rewrite andb_true_iff, !Z.ltb_lt.
Qed.

(** C5: the frame loop of [app.py] saves an alert exactly for the frames
    with at least one Person box and no Hardhat box, and that of
    [app2.py] counts an alert exactly for the frames with at least one
    Person box and fewer Hardhat boxes than Person boxes. *)
Theorem presence_and_count_deficit (f : list (option (list raw_box))) :
  (App.violating f = true <->
     0 < count_label "Person" (all_boxes f) /\
     count_label "Hardhat" (all_boxes f) = 0) /\
  (App2.violating f = true <->
     0 < count_label "Person" (all_boxes f) /\
     count_label "Hardhat" (all_boxes f) < count_label "Person" (all_boxes f)) /\
  (forall st,
     App.alert_images (App.process_frame st f)
     = App.alert_images st
       ++ (if App.violating f then [App.frame_idx st + 1] else [])) /\
  (forall st,
     App2.alert_count (App2.process_frame st f)
     = App2.alert_count st + (if App2.violating f then 1 else 0)).
Proof.
  split; [apply App_violating_iff|]. split; [apply App2_violating_iff|].
  split; intros st.
  - unfold App.process_frame. destruct (App.violating f); simpl; [done|].
    by rewrite app_nil_r.
  - unfold App2.process_frame. destruct (App2.violating f); simpl; lia.
Qed.

Lemma presence_and_count_deficit_witness :
  let f := [Some [person_left; person_right; hardhat_left]] in
  App.violating f = false /\ App2.violating f = true.
Proof.
  cbv zeta.
  destruct (presence_and_count_deficit
              [Some [person_left; person_right; hardhat_left]])
    as (Hpresence & Hdeficit & _).
  split.
  - destruct (App.violating _); [|reflexivity].
    destruct Hpresence as [Hp _]. destruct (Hp eq_refl) as [_ E].
    vm_compute in E. discriminate E.
  - apply Hdeficit. vm_compute. split; reflexivity.
Defined.

End Policies.

(* ===================================================================== *)
(** ** Periodic summary snapshots of [app3.py]                           *)
(* ===================================================================== *)

Section PeriodicSummary.

Import App3.

Lemma frame_summary_log st f k hl :
  WriteSummary k hl ∈ log (process_frame st f) <->
  WriteSummary k hl ∈ log st \/
  (k = frame_idx st + 1 /\ violating f = true /\ k mod 70 = 0 /\
   hl = violations_to_draw (scan_frame f)).
Proof.
  unfold process_frame. destruct (violating f); cbn [log].
  - rewrite !elem_of_app.
    destruct (Z.eqb_spec ((frame_idx st + 1) mod 70) 0) as [H0|H0].
    + rewrite list_elem_of_singleton. split.
      * intros [?|[Hw|Hs]]; [by left| |].
        -- apply elem_of_cons in Hw as [?|Hw]; [done|].
           by apply list_elem_of_singleton in Hw.
        -- injection Hs as -> ->. by right.
      * intros [?|(-> & _ & _ & ->)]; [by left|]. right. by right.
    + split.
      * intros [?|[Hw|Hs]]; [by left| |].
        -- apply elem_of_cons in Hw as [?|Hw]; [done|].
           by apply list_elem_of_singleton in Hw.
        -- by apply elem_of_nil in Hs.
      * intros [?|(-> & _ & ? & _)]; [by left|done].
  - rewrite elem_of_app, list_elem_of_singleton. split.
    + intros [?|?]; [by left|done].
    + intros [?|(_ & ? & _)]; [by left|done].
Qed.

Lemma frame_idx_step st f : frame_idx (process_frame st f) = frame_idx st + 1.
Proof. unfold process_frame. by destruct (violating f). Qed.

Lemma session_summary_log fs : forall st k hl,
  WriteSummary k hl ∈ log (fold_left process_frame fs st) <->
  WriteSummary k hl ∈ log st \/
  exists i f,
    fs !! i = Some f /\ k = frame_idx st + 1 + Z.of_nat i /\
    violating f = true /\ k mod 70 = 0 /\
    hl = violations_to_draw (scan_frame f).
Proof.
  induction fs as [|f fs IH]; intros st k hl; cbn [fold_left].
  - split; [by left|]. intros [?|(i & f & Hi & _)]; [done|].
    by rewrite lookup_nil in Hi.
  - rewrite IH, frame_summary_log, frame_idx_step. split.
    + intros [[?|(-> & ? & ? & ->)]|(i & f' & Hi & -> & ? & ? & ->)].
      * by left.
      * right. exists 0%nat, f. repeat split; try done. simpl. lia.
      * right. exists (S i), f'. repeat split; try done. lia.
    + intros [?|(i & f' & Hi & -> & ? & ? & ->)]; [by left; left|].
      destruct i as [|i]; simpl in Hi.
      * injection Hi as <-. left. right. repeat split; try done. simpl. lia.
      * right. exists i, f'. repeat split; try done. lia.
Qed.

(** C4 (amended): over a whole video, the summary snapshot of frame [k]
    is written exactly when frame [k] is violating under the
    count-deficit test and [k % 70 == 0]; nothing else, in particular no
    earlier frame or earlier capture, enters the decision. *)
Theorem summary_snapshot_needs_violation
    (cap : capture) (k : Z) (hl : list box) :
  isOpened cap = true ->
  (WriteSummary k hl ∈ snd (process_video cap) <->
   exists f,
     1 <= k /\ frames cap !! Z.to_nat (k - 1) = Some f /\
     violating f = true /\ k mod 70 = 0 /\
     hl = violations_to_draw (scan_frame f)) /\
  (forall f,
     violating f = true <->
     0 < count_label "Person" (all_boxes f) /\
     count_label "Hardhat" (all_boxes f) < count_label "Person" (all_boxes f)).
Proof.
  intros Hopen. split; [|apply App3_violating_iff].
  unfold process_video. rewrite Hopen; cbn [negb snd].
  rewrite session_summary_log. cbn [init log frame_idx]. split.
  - intros [?%elem_of_nil|(i & f & Hi & -> & ? & ? & ->)]; [done|].
    exists f. split; [lia|]. split; [|done].
    by replace (Z.to_nat (0 + 1 + Z.of_nat i - 1)) with i by lia.
  - intros (f & ? & Hf & ? & ? & ->). right.
    exists (Z.to_nat (k - 1)), f. repeat split; try done. lia.
Qed.

Lemma summary_snapshot_needs_violation_witness :
  let cap := Capture true 25 (replicate 69 [] ++ [[Some [person_left]]]) in
  isOpened cap = true /\
  WriteSummary 70 [Box 0 0 10 20] ∈ snd (process_video cap).
Proof.
  cbv zeta.
  assert (Hopen : isOpened
            (Capture true 25 (replicate 69 [] ++ [[Some [person_left]]]))
          = true) by reflexivity.
  split; [exact Hopen|].
  apply (summary_snapshot_needs_violation _ 70 [Box 0 0 10 20] Hopen).
  exists [Some [person_left]].
  split; [lia|]. split; [reflexivity|]. split; [reflexivity|].
  split; reflexivity.
Defined.

(** C4 as stated fails: in a video of 560 frames that each show one
    person wearing a hardhat, frame 560 has an index divisible by 70 and
    by 80, yet the session writes the 560 annotated frames and no summary
    snapshot. *)
Lemma no_snapshot_without_violation :
  let cap := Capture true 25
               (replicate 560 [Some [person_left; hardhat_left]]) in
  Spec.snapshot_due 70 560 = true /\
  Spec.snapshot_due 80 560 = true /\
  process_video cap = ((Some 25%Q, 560, 0), WriteFrame <$> seqZ 1 560).
Proof.
  cbv zeta. split; [reflexivity|]. split; [reflexivity|].
  vm_compute. reflexivity.
Qed.

End PeriodicSummary.

(* ===================================================================== *)
(** ** Further properties of [iou]                                       *)
(* ===================================================================== *)

Section IouFurther.

Lemma interArea_zero_disjoint A B : interArea A B = 0 -> disjoint A B.
Proof.
  intros H0 x y [[Hax Hay] [Hbx Hby]].
  unfold interArea in H0; cbv zeta in H0.
  assert (0 < Z.min (bx2 A) (bx2 B) - Z.max (bx1 A) (bx1 B)) by lia.
  assert (0 < Z.min (by2 A) (by2 B) - Z.max (by1 A) (by1 B)) by lia.
  rewrite !Z.max_r in H0 by lia. nia.
Qed.

(** X1: [iou] is exactly [0] precisely for the pairs of boxes that share
    no pixel, and is positive for every other pair. *)
Theorem iou_zero_iff_disjoint (A B : box) :
  (iou A B = Some 0%Q <-> disjoint A B) /\
  (~ disjoint A B <-> exists q, iou A B = Some q /\ (0 < q)%Q).
Proof.
  pose proof (interArea_nonneg A B) as Hnn.
  destruct (Z.eq_dec (interArea A B) 0) as [H0|Hne].
  - pose proof (interArea_zero_disjoint _ _ H0) as Hd.
    pose proof (iou_zero _ _ H0) as Hz. split.
    + tauto.
    + split; [tauto|]. intros (q & Hq & Hpos). rewrite Hz in Hq.
      injection Hq as <-. by apply Qlt_irrefl in Hpos.
  - destruct (iou_pos A B) as (q & Hq & Hpos & _); [lia|].
    assert (Hnd : ~ disjoint A B).
    { intros Hd. apply interArea_disjoint in Hd. lia. }
    split.
    + split; [|tauto]. intros Hz. rewrite Hz in Hq. injection Hq as <-.
      by apply Qlt_irrefl in Hpos.
    + split; [by exists q|done].
Qed.

Lemma interArea_full_l A B :
  0 < interArea A B -> interArea A B = boxArea A ->
  bx1 B <= bx1 A /\ by1 B <= by1 A /\ bx2 A <= bx2 B /\ by2 A <= by2 B.
Proof.
  intros Hpos Heq. destruct (interArea_pos_sides _ _ Hpos) as [Hx Hy].
  unfold interArea, boxArea in Heq; cbv zeta in Heq.
  rewrite !Z.max_r in Heq by lia.
  assert (Hw : Z.min (bx2 A) (bx2 B) - Z.max (bx1 A) (bx1 B) <= bx2 A - bx1 A)
    by lia.
  assert (Hh : Z.min (by2 A) (by2 B) - Z.max (by1 A) (by1 B) <= by2 A - by1 A)
    by lia.
  assert (Z.min (bx2 A) (bx2 B) - Z.max (bx1 A) (bx1 B) = bx2 A - bx1 A) by nia.
  assert (Z.min (by2 A) (by2 B) - Z.max (by1 A) (by1 B) = by2 A - by1 A) by nia.
  lia.
Qed.

(** X2: [iou] reaches [1] only on a box paired with itself. *)
Theorem iou_one_only_identical (A B : box) (q : Q) :
  iou A B = Some q -> (q == 1)%Q -> A = B /\ ~ degenerate A.
Proof.
  intros Hq H1. pose proof (interArea_nonneg A B) as Hnn.
  destruct (Z.eq_dec (interArea A B) 0) as [H0|Hne].
  { rewrite (iou_zero _ _ H0) in Hq. injection Hq as <-. discriminate H1. }
  assert (Hpos : 0 < interArea A B) by lia.
  pose proof (interArea_le_l _ _ Hpos) as HlA.
  pose proof (interArea_le_r _ _ Hpos) as HlB.
  unfold iou in Hq; cbv zeta in Hq.
  destruct (Z.eqb_spec (interArea A B) 0) as [?|_]; [lia|].
  unfold truediv in Hq.
  destruct (Z.eqb_spec (boxArea A + boxArea B - interArea A B) 0) as [?|_];
    [lia|].
  injection Hq as <-.
  assert (Hunion : interArea A B = boxArea A + boxArea B - interArea A B).
  { remember (boxArea A + boxArea B - interArea A B) as u eqn:Hu.
    assert (0 < u) by lia. destruct u as [|u|u]; try lia.
    unfold Qeq, Qdiv, Qmult, Qinv, inject_Z in H1; simpl in H1. lia. }
  destruct (interArea_full_l A B Hpos) as (? & ? & ? & ?); [lia|].
  destruct (interArea_full_l B A) as (? & ? & ? & ?);
    [rewrite interArea_comm; lia|rewrite interArea_comm; lia|].
  split.
  - destruct A, B; simpl in *. f_equal; lia.
  - destruct (interArea_pos_sides _ _ Hpos). unfold degenerate. lia.
Qed.

Lemma iou_one_only_identical_witness :
  Box 0 0 10 10 = Box 0 0 10 10 /\ ~ degenerate (Box 0 0 10 10).
Proof.
  apply (iou_one_only_identical (Box 0 0 10 10) (Box 0 0 10 10) (100 # 100)).
  - reflexivity.
  - reflexivity.
Defined.

(** X3: moving both boxes by the same offset does not change [iou]. *)
Theorem iou_shift (dx dy : Z) (A B : box) :
  iou (shift dx dy A) (shift dx dy B) = iou A B.
Proof.
  assert (Hi : interArea (shift dx dy A) (shift dx dy B) = interArea A B).
  { unfold interArea, shift; cbv zeta; simpl. f_equal; f_equal; lia. }
  assert (Ha : forall b, boxArea (shift dx dy b) = boxArea b).
  { intros b. unfold boxArea, shift; simpl. f_equal; lia. }
  unfold iou; cbv zeta. by rewrite Hi, !Ha.
Qed.

(** The quotient is at most the ratio of the second area to the first. *)
Lemma iou_le_area_ratio A B q :
  iou A B = Some q -> 5 * boxArea B <= boxArea A -> (q <= 2 # 10)%Q.
Proof.
  intros Hq Hsmall. pose proof (interArea_nonneg A B) as Hnn.
  destruct (Z.eq_dec (interArea A B) 0) as [H0|Hne].
  { rewrite (iou_zero _ _ H0) in Hq. by injection Hq as <-. }
  assert (Hpos : 0 < interArea A B) by lia.
  pose proof (interArea_le_l _ _ Hpos) as HlA.
  pose proof (interArea_le_r _ _ Hpos) as HlB.
  unfold iou in Hq; cbv zeta in Hq.
  destruct (Z.eqb_spec (interArea A B) 0) as [?|_]; [lia|].
  unfold truediv in Hq.
  destruct (Z.eqb_spec (boxArea A + boxArea B - interArea A B) 0) as [?|_];
    [lia|].
  injection Hq as <-.
  remember (boxArea A + boxArea B - interArea A B) as u eqn:Hu.
  assert (0 < u) by lia. destruct u as [|u|u]; try lia.
  unfold Qle, Qdiv, Qmult, Qinv, inject_Z; simpl. lia.
Qed.

End IouFurther.

(* ===================================================================== *)
(** ** Further properties of association and ingestion                   *)
(* ===================================================================== *)

Section AssociationFurther.

(** X4: a person is found without helmet whenever every hardhat box of the
    frame has at most a fifth of the person box's area, wherever those
    boxes lie, even inside the person box. *)
Theorem has_helmet_small_hardhats (person_box : box) (hardhats : list box) :
  Forall (λ h, 5 * boxArea h <= boxArea person_box) hardhats ->
  AppMain.has_helmet person_box hardhats = Some false.
Proof.
  intros Hsmall.
  destruct (has_helmet_spec person_box hardhats) as (e & He & Hiff).
  destruct e; [|done]. exfalso.
  destruct (proj1 Hiff eq_refl) as (h & q & Hin & Hq & Hgt).
  rewrite Forall_forall in Hsmall.
  pose proof (iou_le_area_ratio _ _ _ Hq (Hsmall h Hin)) as Hle.
  by eapply Qlt_not_le.
Qed.

Lemma has_helmet_small_hardhats_witness :
  AppMain.has_helmet (Box 0 0 100 300) [Box 30 0 70 40] = Some false.
Proof.
  apply has_helmet_small_hardhats.
  repeat constructor. unfold boxArea; simpl. lia.
Defined.

(** X5: the verdict on a person depends on the set of hardhat boxes only:
    further boxes never turn an equipped person into an unequipped one,
    and the order in which the detector emits the boxes is irrelevant. *)
Theorem has_helmet_monotone_order_free
    (person_box : box) (hardhats hardhats' : list box) :
  (hardhats ⊆ hardhats' ->
   AppMain.has_helmet person_box hardhats = Some true ->
   AppMain.has_helmet person_box hardhats' = Some true) /\
  (hardhats ≡ₚ hardhats' ->
   AppMain.has_helmet person_box hardhats
   = AppMain.has_helmet person_box hardhats').
Proof.
  destruct (has_helmet_spec person_box hardhats) as (e & He & Hiff).
  destruct (has_helmet_spec person_box hardhats') as (e' & He' & Hiff').
  rewrite He, He'. split.
  - intros Hsub [= ->]. f_equal. apply Hiff'.
    destruct (proj1 Hiff eq_refl) as (h & q & Hin & Hq & Hgt).
    exists h, q. split; [by apply Hsub|done].
  - intros Hperm. f_equal.
    assert (Heq : e = true <-> e' = true).
    { rewrite Hiff, Hiff'. split; intros (h & q & Hin & Hq);
        exists h, q; (split; [|done]).
      - by rewrite <- Hperm.
      - by rewrite Hperm. }
    destruct e, e'; try done; [symmetry|]; apply Heq; done.
Qed.

Lemma has_helmet_monotone_order_free_witness :
  AppMain.has_helmet (Box 0 0 10 20) [Box 50 50 60 60; Box 0 0 10 10]
  = Some true /\
  AppMain.has_helmet (Box 0 0 10 20) [Box 50 50 60 60; Box 0 0 10 10]
  = AppMain.has_helmet (Box 0 0 10 20) [Box 0 0 10 10; Box 50 50 60 60].
Proof.
  split.
  - apply (has_helmet_monotone_order_free (Box 0 0 10 20) [Box 0 0 10 10]).
    + intros h Hh. apply list_elem_of_singleton in Hh. subst h.
      apply elem_of_cons. right. apply elem_of_cons. by left.
    + reflexivity.
  - apply has_helmet_monotone_order_free. apply Permutation_swap.
Defined.

Lemma passes_stricter strict lax rb :
  stricter strict lax ->
  AppMain.passes strict rb = true -> AppMain.passes lax rb = true.
Proof.
  intros Hs (t' & Ht' & Hle')%passes_configured.
  destruct (Hs _ _ Ht') as (t & Ht & Hle).
  apply passes_configured. exists t. split; [done|]. by eapply Qle_trans.
Qed.

Lemma selected_stricter strict lax label bs :
  stricter strict lax ->
  selected strict label bs `sublist_of` selected lax label bs.
Proof.
  intros Hs. induction bs as [|rb bs IH]; [done|].
  rewrite !selected_cons.
  destruct (rb_label rb =? label)%string; simpl; [|done].
  destruct (AppMain.passes strict rb) eqn:Hp.
  - rewrite (passes_stricter _ _ _ Hs Hp). simpl. by apply sublist_skip.
  - destruct (AppMain.passes lax rb); simpl; [by apply sublist_cons|done].
Qed.

(** X6: raising thresholds only removes detections: on the same detector
    output, each list built under the stricter thresholds is a sublist, in
    the same order, of the list built under the laxer ones. *)
Theorem ingest_stricter_sublist
    (strict lax : gmap string Q) (prev : gmap string (list box))
    (boxes : option (list raw_box)) :
  stricter strict lax ->
  dom lax ⊆ dom AppMain.detections0 ->
  dom prev = dom AppMain.detections0 ->
  exists set set',
    AppMain.ingest strict ((λ _, []) <$> prev) boxes = Some set /\
    AppMain.ingest lax ((λ _, []) <$> prev) boxes = Some set' /\
    forall label l, set !! label = Some l ->
      exists l', set' !! label = Some l' /\ l `sublist_of` l'.
Proof.
  intros Hs Hlax Hprev.
  assert (Hstrict : dom strict ⊆ dom AppMain.detections0).
  { intros label [t' Ht']%elem_of_dom. destruct (Hs _ _ Ht') as (t & Ht & _).
    apply Hlax, elem_of_dom. by exists t. }
  destruct (ingest_frame strict prev boxes Hprev Hstrict)
    as (set & Hset & Hdom & Hlk).
  destruct (ingest_frame lax prev boxes Hprev Hlax)
    as (set' & Hset' & Hdom' & Hlk').
  exists set, set'. split; [done|]. split; [done|].
  intros label l Hl.
  assert (Hin : label ∈ dom AppMain.detections0)
    by (rewrite <- Hdom; apply elem_of_dom; by exists l).
  rewrite (Hlk _ Hin) in Hl. injection Hl as <-.
  eexists. split; [by apply Hlk'|]. by apply selected_stricter.
Qed.

Lemma ingest_stricter_sublist_witness :
  exists set set',
    AppMain.ingest {[ "Person" := (8#10)%Q ]}
      ((λ _, []) <$> AppMain.detections0)
      (Some [person_left; hardhat_left]) = Some set /\
    AppMain.ingest AppMain.thresholds_ui
      ((λ _, []) <$> AppMain.detections0)
      (Some [person_left; hardhat_left]) = Some set' /\
    forall label l, set !! label = Some l ->
      exists l', set' !! label = Some l' /\ l `sublist_of` l'.
Proof.
  apply ingest_stricter_sublist.
  - intros label t' Ht'.
    apply lookup_singleton_Some in Ht' as [<- <-].
    exists (1#2)%Q. split; [reflexivity|]. unfold Qle; simpl; lia.
  - rewrite dom_thresholds_ui. reflexivity.
  - reflexivity.
Defined.

End AssociationFurther.

(* ===================================================================== *)
(** ** Further properties of a session of [app_main.py]                  *)
(* ===================================================================== *)

Section SessionTheorems.

Import AppMain.



(** X8: the totals a session mails are the counts of the last processed
    frame only (zero for a source without frames): the persons that
    frame's ingestion kept, and for each class of equipment the kept boxes
    of that frame, capped at that number of persons. This holds of every
    session on an opened source in which no person found without helmet
    has an empty crop (the others raise before the summary). *)
Theorem summary_reports_last_frame
    (clock : nat -> Q) (is_live : bool) (thresholds : gmap string Q)
    (cap : capture) :
  dom thresholds ⊆ dom detections0 ->
  isOpened cap = true ->
  crops_fit (frame_rows cap) (frame_cols cap) thresholds
            (shown is_live (frames cap)) ->
  let final := last_boxes (shown is_live (frames cap)) in
  exists n s evs,
    detect_and_process clock is_live thresholds cap
    = Some (Completed n s, evs) /\
    sm_persons s = len (selected thresholds "Person" final) /\
    sm_hardhats s
    = Z.min (len (selected thresholds "Hardhat" final)) (sm_persons s) /\
    sm_masks s
    = Z.min (len (selected thresholds "Face Mask" final)) (sm_persons s) /\
    sm_vests s
    = Z.min (len (selected thresholds "Safety Vest" final)) (sm_persons s).
Proof.
  intros Hth Hopen Hfit final.
  destruct (session_spec clock is_live thresholds cap Hth Hopen Hfit)
    as (s & ws & Hrun & _ & Hp & Hh & Hm & Hv & _).
  by eexists _, s, _.
Qed.

Lemma summary_reports_last_frame_witness :
  exists n s evs,
    detect_and_process clock_seconds false thresholds_ui
      (Capture true 480 640 [Frame (Some [person_left; person_right]) 0;
                             Frame (Some [person_left; hardhat_left]) 0])
    = Some (Completed n s, evs) /\
    sm_persons s = 1 /\ sm_hardhats s = 1 /\ sm_masks s = 0 /\ sm_vests s = 0.
Proof.
  destruct (summary_reports_last_frame clock_seconds false thresholds_ui
              (Capture true 480 640
                 [Frame (Some [person_left; person_right]) 0;
                  Frame (Some [person_left; hardhat_left]) 0]))
    as (n & s & evs & Hrun & Hp & Hh & Hm & Hv).
  - rewrite dom_thresholds_ui. reflexivity.
  - reflexivity.
  - repeat constructor.
  - exists n, s, evs. split; [exact Hrun|].
    rewrite Hp in Hh, Hm, Hv.
    split; [exact Hp|]. split; [exact Hh|]. split; [exact Hm|exact Hv].
Defined.

(** X9: every crop a session writes is named after a processed frame and
    shows a person of that frame whom ingestion kept and who was found
    without helmet. *)
Theorem crops_show_unequipped_persons
    (clock : nat -> Q) (is_live : bool) (thresholds : gmap string Q)
    (cap : capture) (n : Z) (s : summary) (evs : list event)
    (k : Z) (crop : box) :
  dom thresholds ⊆ dom detections0 ->
  detect_and_process clock is_live thresholds cap = Some (Completed n s, evs) ->
  WriteViolation k crop ∈ evs ->
  exists f,
    1 <= k /\
    shown is_live (frames cap) !! Z.to_nat (k - 1) = Some f /\
    crop ∈ unequipped_persons thresholds f.
Proof.
  intros Hth Hrun Hin.
  destruct (completed_crops_fit clock is_live thresholds cap n s evs Hth Hrun)
    as [Hopen Hfit].
  destruct (session_spec clock is_live thresholds cap Hth Hopen Hfit)
    as (s' & ws & Hrun' & _ & _ & _ & _ & _ & Hws & _).
  rewrite Hrun in Hrun'. injection Hrun' as -> -> ->.
  apply elem_of_cons in Hin as [Hin|Hin]; [done|].
  apply elem_of_app in Hin as [Hin|Hin];
    [|repeat (apply elem_of_cons in Hin as [Hin|Hin]; [done|]);
      by apply elem_of_nil in Hin].
  rewrite Forall_forall in Hws.
  destruct (Hws _ Hin) as (i & f & p & Hf & [= -> ->] & Hp).
  exists f. split; [lia|]. split; [|done].
  by replace (Z.to_nat (1 + Z.of_nat i - 1)) with i by lia.
Qed.

Lemma crops_show_unequipped_persons_witness :
  exists f,
    1 <= 1 /\
    shown false [Frame (Some [person_left]) 0] !! Z.to_nat (1 - 1) = Some f /\
    Box 0 0 10 20 ∈ unequipped_persons thresholds_ui f.
Proof.
  eapply (crops_show_unequipped_persons clock_ten_seconds false thresholds_ui
            (Capture true 480 640 [Frame (Some [person_left]) 0])).
  - rewrite dom_thresholds_ui. reflexivity.
  - reflexivity.
  - apply elem_of_cons. right. apply elem_of_cons. left. reflexivity.
Defined.



Lemma process_frame_boxes_only clock thresholds rows cols st f f' :
  f_boxes f = f_boxes f' ->
  process_frame clock thresholds rows cols st f
  = process_frame clock thresholds rows cols st f'.
Proof. intros H. unfold process_frame. by rewrite H. Qed.

(** X11: in live mode the frames that follow a frame on which the key code
    is 27 (Esc) do not influence the session in any way. *)
Theorem esc_ends_live_session
    (clock : nat -> Q) (thresholds : gmap string Q) (opened : bool)
    (rows cols : Z) (before after : list frame) (f : frame) :
  f_key f = 27 ->
  detect_and_process clock true thresholds
    (Capture opened rows cols (before ++ f :: after))
  = detect_and_process clock true thresholds
      (Capture opened rows cols (before ++ [f])).
Proof.
  intros Hkey.
  unfold detect_and_process; cbn [isOpened frames frame_rows frame_cols].
  destruct opened; cbn [negb]; [|done].
  assert (Hrun : forall st,
            run clock true thresholds rows cols st (before ++ f :: after)
            = run clock true thresholds rows cols st (before ++ [f])).
  { induction before as [|f0 before IH]; intros st; cbn [app run].
    - destruct (process_frame clock thresholds rows cols st f); [|done].
      cbn [mbind option_bind]. by rewrite Hkey.
    - destruct (process_frame clock thresholds rows cols st f0) as [st1|];
        [|done].
      cbn [mbind option_bind].
      destruct (true && (f_key f0 =? 27)); [done|apply IH]. }
  by rewrite Hrun.
Qed.

Lemma esc_ends_live_session_witness :
  detect_and_process clock_seconds true thresholds_ui
    (Capture true 480 640
       ([Frame (Some [person_left]) 0] ++ Frame (Some []) 27
        :: [Frame (Some [person_left; person_right]) 0]))
  = detect_and_process clock_seconds true thresholds_ui
      (Capture true 480 640
         ([Frame (Some [person_left]) 0] ++ [Frame (Some []) 27])).
Proof. apply esc_ends_live_session. reflexivity. Defined.

(** X12: outside live mode the key codes are never consulted: two sources
    that deliver the same detections give the same session. *)
Theorem keys_ignored_outside_live_mode
    (clock : nat -> Q) (thresholds : gmap string Q) (opened : bool)
    (rows cols : Z) (fs fs' : list frame) :
  f_boxes <$> fs = f_boxes <$> fs' ->
  detect_and_process clock false thresholds (Capture opened rows cols fs)
  = detect_and_process clock false thresholds (Capture opened rows cols fs').
Proof.
  intros Hsame.
  unfold detect_and_process; cbn [isOpened frames frame_rows frame_cols].
  destruct opened; cbn [negb]; [|done].
  assert (Hrun : forall st,
            run clock false thresholds rows cols st fs
            = run clock false thresholds rows cols st fs').
  { revert fs' Hsame. induction fs as [|f fs IH]; intros [|f' fs'] Hsame st;
      try done.
    injection Hsame as Hf Hrest. cbn [run].
    rewrite (process_frame_boxes_only _ _ _ _ _ _ _ Hf).
    destruct (process_frame clock thresholds rows cols st f') as [st1|];
      [|done].
    cbn [mbind option_bind andb]. by apply IH. }
  by rewrite Hrun.
Qed.

Lemma keys_ignored_outside_live_mode_witness :
  detect_and_process clock_seconds false thresholds_ui
    (Capture true 480 640 [Frame (Some [person_left]) 27; Frame (Some []) 0])
  = detect_and_process clock_seconds false thresholds_ui
      (Capture true 480 640
         [Frame (Some [person_left]) 0; Frame (Some []) 13]).
Proof. apply keys_ignored_outside_live_mode. reflexivity. Defined.

End SessionTheorems.

(* ===================================================================== *)
(** ** Whole videos in [app.py], [app2.py] and [app3.py]                 *)
(* ===================================================================== *)

Section VideoSessions.

Context {F : Type} (flag : F -> bool).

Lemma elem_of_flagged_from fs : forall k k',
  k' ∈ flagged_from flag k fs <->
  exists i f, fs !! i = Some f /\ k' = k + Z.of_nat i /\ flag f = true.
Proof.
  induction fs as [|f fs IH]; intros k k'; cbn [flagged_from].
  - split; [by intros ?%elem_of_nil|]. intros (i & f & Hi & _).
    by rewrite lookup_nil in Hi.
  - rewrite elem_of_app, IH. split.
    + intros [Hk|(i & f' & Hi & -> & Hf)].
      * destruct (flag f) eqn:Hf; [|by apply elem_of_nil in Hk].
        apply list_elem_of_singleton in Hk as ->.
        exists 0%nat, f. repeat split; try done. lia.
      * exists (S i), f'. repeat split; try done. lia.
    + intros ([|i] & f' & Hi & -> & Hf); simpl in Hi.
      * injection Hi as <-. left. rewrite Hf. apply list_elem_of_singleton. lia.
      * right. exists i, f'. repeat split; try done. lia.
Qed.

Lemma flagged_from_sorted fs : forall k,
  StronglySorted Z.lt (flagged_from flag k fs).
Proof.
  induction fs as [|f fs IH]; intros k; cbn [flagged_from]; [constructor|].
  destruct (flag f); simpl; [|apply IH].
  constructor; [apply IH|].
  apply Forall_forall. intros k' (i & f' & _ & -> & _)%elem_of_flagged_from.
  lia.
Qed.

Lemma length_flagged_from fs : forall k,
  len (flagged_from flag k fs) = len (List.filter flag fs).
Proof.
  induction fs as [|f fs IH]; intros k; cbn [flagged_from List.filter]; [done|].
  specialize (IH (k + 1)). unfold len in *.
  destruct (flag f); simpl; lia.
Qed.

End VideoSessions.

Section VideoApp.

Import App.

Lemma App_run fs : forall st,
  frame_idx (fold_left process_frame fs st) = frame_idx st + len fs /\
  alert_images (fold_left process_frame fs st)
  = alert_images st ++ flagged_from violating (frame_idx st + 1) fs /\
  (forall k, WriteFrame k ∈ log (fold_left process_frame fs st) <->
             WriteFrame k ∈ log st \/ frame_idx st < k <= frame_idx st + len fs) /\
  (forall k, WriteAlert k ∈ log (fold_left process_frame fs st) <->
             WriteAlert k ∈ log st \/
             k ∈ flagged_from violating (frame_idx st + 1) fs).
Proof.
  induction fs as [|f fs IH]; intros st; cbn [fold_left flagged_from].
  - unfold len; simpl. rewrite app_nil_r. repeat split; try lia; try tauto.
    + intros [?|?]; [done|lia].
    + intros [?|?%elem_of_nil]; done.
  - destruct (IH (process_frame st f)) as (Hi & Ha & Hwf & Hwa).
    assert (Hidx : frame_idx (process_frame st f) = frame_idx st + 1)
      by (unfold process_frame; by destruct (violating f)).
    rewrite Hidx in Hi, Ha, Hwf, Hwa.
    split; [rewrite Hi; unfold len; simpl length; lia|].
    split.
    { rewrite Ha. unfold process_frame.
      destruct (violating f); simpl; [by rewrite <- app_assoc|done]. }
    split.
    + intros k. rewrite Hwf. unfold len; simpl length.
      unfold process_frame. destruct (violating f); cbn [log];
        rewrite elem_of_app, ?elem_of_cons, ?elem_of_nil; split.
      * intros [[?|[[= ->]|[?|[]]]]|?]; try done; [by left|right; lia|right; lia].
      * intros [?|?]; [by left; left|].
        destruct (decide (k = frame_idx st + 1)) as [->|?];
          [left; right; by left|right; lia].
      * intros [[?|[[= ->]|[]]]|?]; [by left|right; lia|right; lia].
      * intros [?|?]; [by left; left|].
        destruct (decide (k = frame_idx st + 1)) as [->|?];
          [left; right; by left|right; lia].
    + intros k. rewrite Hwa. unfold process_frame.
      destruct (violating f); cbn [log];
        rewrite !elem_of_app, ?elem_of_cons, ?elem_of_nil; split.
      * intros [[?|[?|[[= ->]|[]]]]|?]; try done;
          [by left|right; left; by left|right; by right].
      * intros [?|[[->|[]]|?]]; [by left; left| |by right].
        left. right. right. by left.
      * intros [[?|[?|[]]]|?]; try done; [by left|right; by right].
      * intros [?|[[]|?]]; [by left; left|by right].
Qed.

(** X13: on an opened source [process_video] of [app.py] returns the frame
    rate, the number of frames, and the alert files of exactly the frames
    that show a person and no hardhat, by increasing frame number; it
    saves an annotated image for every frame and an alert image for
    exactly the frames in that list. *)
Theorem App_process_video_alerts (cap : capture) :
  isOpened cap = true ->
  exists evs,
    process_video cap
    = (Some (fps cap, len (frames cap), flagged_from violating 1 (frames cap)),
       evs) /\
    (forall k, k ∈ flagged_from violating 1 (frames cap) <->
       exists f, 1 <= k /\ frames cap !! Z.to_nat (k - 1) = Some f /\
                 violating f = true) /\
    StronglySorted Z.lt (flagged_from violating 1 (frames cap)) /\
    (forall k, WriteFrame k ∈ evs <-> 1 <= k <= len (frames cap)) /\
    (forall k, WriteAlert k ∈ evs <-> k ∈ flagged_from violating 1 (frames cap)).
Proof.
  intros Hopen. unfold process_video. rewrite Hopen; cbn [negb].
  destruct (App_run (frames cap) init) as (Hi & Ha & Hwf & Hwa).
  cbn [init frame_idx alert_images log app] in Hi, Ha, Hwf, Hwa.
  eexists. split.
  { rewrite Hi, Ha. replace (0 + len (frames cap)) with (len (frames cap)) by lia.
    reflexivity. }
  split.
  { intros k. rewrite elem_of_flagged_from. split.
    - intros (i & f & Hf & -> & Hv). exists f. split; [lia|]. split; [|done].
      by replace (Z.to_nat (1 + Z.of_nat i - 1)) with i by lia.
    - intros (f & Hk & Hf & Hv). exists (Z.to_nat (k - 1)), f.
      split; [done|]. split; [lia|done]. }
  split; [apply flagged_from_sorted|]. split.
  - intros k. rewrite Hwf, elem_of_nil. split; [intros [[]|?]; lia|].
    intros ?. right. lia.
  - intros k. rewrite Hwa, elem_of_nil. tauto.
Qed.

Lemma App_process_video_alerts_witness :
  exists evs,
    process_video
      (Capture true 25 [[Some [person_left]]; [Some [person_left; hardhat_left]];
                        [Some [person_right]]])
    = (Some (25%Q, 3, [1; 3]), evs) /\
    WriteAlert 3 ∈ evs.
Proof.
  destruct (App_process_video_alerts
              (Capture true 25 [[Some [person_left]];
                                [Some [person_left; hardhat_left]];
                                [Some [person_right]]]))
    as (evs & Hrun & _ & _ & _ & Hwa); [reflexivity|].
  exists evs. split; [exact Hrun|].
  apply Hwa. apply elem_of_cons. right. apply elem_of_cons. by left.
Defined.

End VideoApp.

Section VideoApp2App3.

Lemma App2_run fs : forall st,
  App2.frame_idx (fold_left App2.process_frame fs st)
  = App2.frame_idx st + len fs /\
  App2.alert_count (fold_left App2.process_frame fs st)
  = App2.alert_count st + len (List.filter App2.violating fs).
Proof.
  induction fs as [|f fs IH]; intros st; cbn [fold_left List.filter].
  - unfold len; simpl; lia.
  - destruct (IH (App2.process_frame st f)) as [-> ->].
    unfold App2.process_frame, len.
    destruct (App2.violating f); simpl; lia.
Qed.

Lemma App3_run fs : forall st,
  App3.frame_idx (fold_left App3.process_frame fs st)
  = App3.frame_idx st + len fs /\
  App3.alert_count (fold_left App3.process_frame fs st)
  = App3.alert_count st + len (List.filter App3.violating fs).
Proof.
  induction fs as [|f fs IH]; intros st; cbn [fold_left List.filter].
  - unfold len; simpl; lia.
  - destruct (IH (App3.process_frame st f)) as [-> ->].
    unfold App3.process_frame, len.
    destruct (App3.violating f); simpl; lia.
Qed.

Lemma len_filter_le {A} (p : A -> bool) (l : list A) :
  0 <= len (List.filter p l) <= len l.
Proof.
  unfold len. induction l as [|a l IH]; simpl; [lia|].
  destruct (p a); simpl; lia.
Qed.

(** X14: on an opened source the [process_video]s of [app2.py] and
    [app3.py] return the number of frames and, as alert count, the number
    of frames with at least one Person box and fewer Hardhat boxes than
    Person boxes: one per frame, never more than the number of frames. *)
Theorem count_deficit_videos_count_frames :
  (forall cap, App2.isOpened cap = true ->
     exists evs,
       App2.process_video cap
       = ((Some (App2.fps cap), len (App2.frames cap),
           len (List.filter App2.violating (App2.frames cap))), evs) /\
       0 <= len (List.filter App2.violating (App2.frames cap))
         <= len (App2.frames cap)) /\
  (forall cap, App3.isOpened cap = true ->
     exists evs,
       App3.process_video cap
       = ((Some (App3.fps cap), len (App3.frames cap),
           len (List.filter App3.violating (App3.frames cap))), evs) /\
       0 <= len (List.filter App3.violating (App3.frames cap))
         <= len (App3.frames cap)).
Proof.
  split; intros cap Hopen.
  - unfold App2.process_video. rewrite Hopen; cbn [negb].
    destruct (App2_run (App2.frames cap) App2.init) as [-> ->].
    eexists. split; [reflexivity|]. apply len_filter_le.
  - unfold App3.process_video. rewrite Hopen; cbn [negb].
    destruct (App3_run (App3.frames cap) App3.init) as [-> ->].
    eexists. split; [reflexivity|]. apply len_filter_le.
Qed.

Lemma count_deficit_videos_count_frames_witness :
  exists evs,
    App2.process_video
      (App2.Capture true 25
         [[Some [person_left; person_right; hardhat_left]];
          [Some [person_left; hardhat_left]]])
    = ((Some 25%Q, 2, 1), evs).
Proof.
  destruct count_deficit_videos_count_frames as [H2 _].
  destruct (H2 (App2.Capture true 25
                  [[Some [person_left; person_right; hardhat_left]];
                   [Some [person_left; hardhat_left]]]))
    as (evs & Hrun & _); [reflexivity|].
  exists evs. exact Hrun.
Defined.

Lemma App2_count_boxes_all bs : forall c,
  let c' := fold_left App2.count_box bs c in
  App2.vest_count c' = App2.vest_count c + count_label "Safety Vest" bs /\
  App2.mask_count c'
  = App2.mask_count c + count_label "Mask" bs + count_label "NO-Mask" bs.
Proof.
  induction bs as [|[label b conf] bs IH]; intros c; cbn [fold_left].
  - cbv zeta. rewrite !count_label_nil. lia.
  - cbv zeta in *. destruct (IH (App2.count_box c (RawBox label b conf)))
      as [-> ->].
    rewrite !count_label_cons. unfold App2.count_box; simpl.
    destruct (String.eqb_spec label "Person") as [->|_]; [simpl; lia|].
    destruct (String.eqb_spec label "Hardhat") as [->|_]; [simpl; lia|].
    destruct (String.eqb_spec label "Safety Vest") as [->|_]; [simpl; lia|].
    destruct (String.eqb_spec label "Mask") as [->|_]; [simpl; lia|].
    destruct (String.eqb_spec label "NO-Mask") as [->|_]; simpl; lia.
Qed.

Lemma App2_count_results_all f : forall c,
  let c' := fold_left App2.count_result f c in
  App2.vest_count c'
  = App2.vest_count c + count_label "Safety Vest" (all_boxes f) /\
  App2.mask_count c'
  = App2.mask_count c + count_label "Mask" (all_boxes f)
    + count_label "NO-Mask" (all_boxes f).
Proof.
  induction f as [|r f IH]; intros c; cbn [fold_left].
  - cbv zeta. change (all_boxes []) with (@nil raw_box).
    rewrite !count_label_nil. lia.
  - cbv zeta in *. destruct (IH (App2.count_result c r)) as [-> ->].
    rewrite all_boxes_cons, !count_label_app.
    destruct r as [bs|]; cbn [App2.count_result from_option id].
    + destruct (App2_count_boxes_all bs c) as [-> ->]. lia.
    + rewrite !count_label_nil. lia.
Qed.

(** X15: the four numbers [app2.py] overlays on a frame are the numbers of
    boxes, over all results of the frame, labelled Person, Hardhat and
    Safety Vest, and for the mask line the boxes labelled Mask or NO-Mask
    together; boxes with any other label are counted nowhere. *)
Theorem App2_overlay_counts (f : App2.frame) :
  App2.person_count (App2.count f) = count_label "Person" (all_boxes f) /\
  App2.hardhat_count (App2.count f) = count_label "Hardhat" (all_boxes f) /\
  App2.vest_count (App2.count f) = count_label "Safety Vest" (all_boxes f) /\
  App2.mask_count (App2.count f)
  = count_label "Mask" (all_boxes f) + count_label "NO-Mask" (all_boxes f).
Proof.
  unfold App2.count.
  destruct (App2_count_results f (App2.Counts 0 0 0 0)) as [-> ->].
  destruct (App2_count_results_all f (App2.Counts 0 0 0 0)) as [-> ->].
  simpl. lia.
Qed.

Lemma App3_draw_boxes bs : forall s,
  App3.violations_to_draw (fold_left App3.scan_box bs s)
  = App3.violations_to_draw s
    ++ (rb_box <$> List.filter (λ rb, (rb_label rb =? "Person")%string) bs).
Proof.
  induction bs as [|rb bs IH]; intros s; cbn [fold_left List.filter].
  - by rewrite app_nil_r.
  - rewrite IH. unfold App3.scan_box.
    destruct (rb_label rb =? "Person")%string; simpl.
    + by rewrite <- app_assoc.
    + by destruct (rb_label rb =? "Hardhat")%string.
Qed.

Lemma App3_draw_results f : forall s,
  App3.violations_to_draw (fold_left App3.scan_result f s)
  = App3.violations_to_draw s
    ++ (rb_box <$> List.filter (λ rb, (rb_label rb =? "Person")%string)
                               (all_boxes f)).
Proof.
  induction f as [|r f IH]; intros s; cbn [fold_left].
  - by rewrite app_nil_r.
  - rewrite IH, all_boxes_cons, List.filter_app, fmap_app, app_assoc.
    f_equal. destruct r as [bs|]; cbn [App3.scan_result from_option id].
    + apply App3_draw_boxes.
    + by rewrite app_nil_r.
Qed.

(** X16: the boxes [app3.py] marks "No Hardhat" on a summary snapshot are
    the boxes of all persons of the frame, in detector order, whether or
    not a hardhat was detected for them; there are as many as the frame's
    person count. *)
Theorem App3_summary_marks_every_person (f : App3.frame) :
  App3.violations_to_draw (App3.scan_frame f)
  = rb_box <$> List.filter (λ rb, (rb_label rb =? "Person")%string)
                           (all_boxes f) /\
  len (App3.violations_to_draw (App3.scan_frame f))
  = App3.person_count (App3.scan_frame f).
Proof.
  unfold App3.scan_frame.
  rewrite App3_draw_results.
  destruct (App3_scan_results f (App3.Scan 0 0 [])) as [-> _].
  split; [done|]. simpl. unfold count_label, len. by rewrite length_fmap.
Qed.

End VideoApp2App3.

(* ===================================================================== *)
(** ** Frame files are replayed in frame order                           *)
(* ===================================================================== *)

Section FrameFiles.

Import Files.

Lemma ascii_compare_lt a b :
  Ascii.compare a b = Lt <-> (Ascii.N_of_ascii a < Ascii.N_of_ascii b)%N.
Proof. unfold Ascii.compare. apply N.compare_lt_iff. Qed.

Lemma string_lt_trans s1 : forall s2 s3,
  String.compare s1 s2 = Lt -> String.compare s2 s3 = Lt ->
  String.compare s1 s3 = Lt.
Proof.
  induction s1 as [|a s1 IH]; intros [|b s2] [|c s3]; simpl; try done.
  destruct (Ascii.compare a b) eqn:Hab; try done;
    destruct (Ascii.compare b c) eqn:Hbc; try done; intros H12 H23.
  - apply Ascii.compare_eq_iff in Hab as ->. rewrite Hbc. by eapply IH.
  - apply Ascii.compare_eq_iff in Hab as ->. by rewrite Hbc.
  - apply Ascii.compare_eq_iff in Hbc as <-. by rewrite Hab.
  - apply (proj1 (ascii_compare_lt _ _)) in Hab.
    apply (proj1 (ascii_compare_lt _ _)) in Hbc.
    assert (Hac : Ascii.compare a c = Lt) by (apply ascii_compare_lt; lia).
    by rewrite Hac.
Qed.

Lemma string_compare_refl s : String.compare s s = Eq.
Proof.
  induction s as [|a s IH]; simpl; [done|].
  unfold Ascii.compare. by rewrite N.compare_refl.
Qed.

Lemma str_le_compare s1 s2 :
  str_le s1 s2 <-> String.compare s1 s2 = Lt \/ s1 = s2.
Proof.
  unfold str_le, String.leb. destruct (String.compare s1 s2) eqn:E; simpl.
  - apply String.compare_eq_iff in E. tauto.
  - tauto.
  - split; [done|]. intros [?| ->]; [done|].
    by rewrite string_compare_refl in E.
Qed.

#[local] Instance str_le_trans : Transitive str_le.
Proof.
  intros s1 s2 s3. rewrite !str_le_compare.
  intros [H12| ->] [H23| ->]; eauto using string_lt_trans.
Qed.

#[local] Instance str_le_antisym : AntiSymm (=) str_le.
Proof.
  intros s1 s2 H12 H21. apply String.leb_antisym; by apply Is_true_true.
Qed.

#[local] Instance str_le_total : Total str_le.
Proof.
  intros s1 s2. unfold str_le.
  destruct (String.leb_total s1 s2) as [H|H]; rewrite H; simpl; tauto.
Qed.

Lemma all_from_spec test n : forall k,
  all_from test k n = true ->
  forall i, k <= i < k + Z.of_nat n -> test i = true.
Proof.
  induction n as [|n IH]; intros k H i Hi; [lia|].
  cbn [all_from] in H. apply andb_true_iff in H as [Hk Hrest].
  destruct (decide (i = k)) as [->|?]; [done|].
  apply (IH (k + 1)); [done|lia].
Qed.

Lemma frame_names_adjacent :
  all_from (λ k, String.ltb (frame_name k) (frame_name (k + 1)))
           0 (Z.to_nat 99999) = true.
Proof. vm_compute. reflexivity. Qed.

Lemma frame_name_lt i j :
  0 <= i -> i < j -> j <= 99999 ->
  String.compare (frame_name i) (frame_name j) = Lt.
Proof.
  intros Hi Hij Hj.
  assert (Hstep : forall k, 0 <= k < 99999 ->
            String.compare (frame_name k) (frame_name (k + 1)) = Lt).
  { intros k Hk.
    pose proof (all_from_spec _ _ _ frame_names_adjacent k) as H.
    cbv beta in H. unfold String.ltb in H.
    destruct (String.compare (frame_name k) (frame_name (k + 1))); try done;
      discriminate H; lia. }
  replace j with (i + 1 + Z.of_nat (Z.to_nat (j - i - 1))) in * by lia.
  induction (Z.to_nat (j - i - 1)) as [|d IH].
  - replace (i + 1 + Z.of_nat 0) with (i + 1) by lia. apply Hstep. lia.
  - apply string_lt_trans with (frame_name (i + 1 + Z.of_nat d)).
    + apply IH; lia.
    + replace (i + 1 + Z.of_nat (S d)) with (i + 1 + Z.of_nat d + 1) by lia.
      apply Hstep. lia.
Qed.

Lemma frame_names_sorted n' : forall m,
  0 <= m -> m + Z.of_nat n' <= 100000 ->
  StronglySorted str_le (frame_name <$> seqZ m (Z.of_nat n')).
Proof.
  induction n' as [|n' IH]; intros m Hm Hn; [constructor|].
  rewrite seqZ_cons by lia. rewrite fmap_cons.
  replace (Z.pred (Z.of_nat (S n'))) with (Z.of_nat n') by lia.
  constructor; [apply IH; lia|].
  apply Forall_fmap, Forall_forall. intros k Hk%elem_of_seqZ. simpl.
  apply str_le_compare. left. apply frame_name_lt; lia.
Qed.

Lemma frame_names_NoDup m n :
  0 <= m -> m + n <= 100000 -> NoDup (frame_name <$> seqZ m n).
Proof.
  intros Hm Hn. apply NoDup_fmap_2_strong; [|apply NoDup_seqZ].
  intros i j Hi%elem_of_seqZ Hj%elem_of_seqZ Heq.
  destruct (Z.lt_trichotomy i j) as [Hlt|[?|Hlt]]; [|done|].
  - pose proof (frame_name_lt i j) as H. rewrite Heq in H.
    rewrite string_compare_refl in H. discriminate H; lia.
  - pose proof (frame_name_lt j i) as H. rewrite Heq in H.
    rewrite string_compare_refl in H. discriminate H; lia.
Qed.

(** X17: when the frame folder holds exactly the frame files 1 to [n] of
    one run, with [n] at most 99999, [recreate_video_from_frames] writes
    them to the video in frame order, whatever order the directory listing
    has; on an empty folder it writes nothing. *)
Theorem recreate_video_in_frame_order (n : Z) (listdir : list string) :
  0 <= n <= 99999 ->
  NoDup listdir ->
  (forall name, name ∈ listdir <-> exists k, 1 <= k <= n /\ name = frame_name k) ->
  recreate_video_from_frames listdir
  = if n =? 0 then None else Some (frame_name <$> seqZ 1 n).
Proof.
  intros Hn Hnd Hdir.
  assert (Hsorted : sorted listdir = frame_name <$> seqZ 1 n).
  { apply (Sorted_unique str_le).
    - apply Sorted_merge_sort. apply _.
    - apply StronglySorted_Sorted.
      replace n with (Z.of_nat (Z.to_nat n)) by lia.
      apply frame_names_sorted; lia.
    - unfold sorted. rewrite merge_sort_Permutation.
      apply NoDup_Permutation; [done|apply frame_names_NoDup; lia|].
      intros name. rewrite Hdir, list_elem_of_fmap.
      split; intros (k & Hk1 & Hk2).
      + exists k. split; [done|]. apply elem_of_seqZ. lia.
      + apply elem_of_seqZ in Hk2. exists k. split; [lia|done]. }
  unfold recreate_video_from_frames. rewrite Hsorted.
  destruct (Z.eqb_spec n 0) as [->|Hne]; [done|].
  rewrite seqZ_cons by lia. done.
Qed.

Lemma recreate_video_in_frame_order_witness :
  recreate_video_from_frames [frame_name 2; frame_name 3; frame_name 1]
  = Some (frame_name <$> seqZ 1 3).
Proof.
  apply (recreate_video_in_frame_order 3).
  - lia.
  - refine (bool_decide_unpack _ _). vm_compute. exact I.
  - intros name. rewrite !elem_of_cons, elem_of_nil. split.
    + intros [Hn|[Hn|[Hn|[]]]]; subst name;
        [by exists 2|by exists 3|by exists 1].
    + intros (k & Hk & Hn). subst name.
      assert (Hc : k = 1 \/ k = 2 \/ k = 3) by lia.
      destruct Hc as [Hc|[Hc|Hc]]; subst k; tauto.
Defined.

(** The bound is tight: the file of frame 100000 sorts before that of
    frame 99999. *)
Example frame_100000_sorts_early :
  String.ltb (frame_name 100000) (frame_name 99999) = true.
Proof. reflexivity. Qed.

End FrameFiles.

(* ===================================================================== *)
(** ** What the scripts mail                                             *)
(* ===================================================================== *)

Section Scripts.

Lemma flagged_from_nil_iff {F} (flag : F -> bool) fs : forall k,
  flagged_from flag k fs = [] <-> Forall (λ f, flag f = false) fs.
Proof.
  induction fs as [|f fs IH]; intros k; cbn [flagged_from].
  - split; [constructor|done].
  - rewrite Forall_cons, <- (IH (k + 1)).
    destruct (flag f); simpl; [split; [done|by intros [? _]]|tauto].
Qed.

Lemma filter_nil_iff {A} (p : A -> bool) (l : list A) :
  len (List.filter p l) = 0 <-> Forall (λ a, p a = false) l.
Proof.
  unfold len. induction l as [|a l IH]; simpl; [split; [constructor|done]|].
  rewrite Forall_cons. destruct (p a); simpl.
  - split; [lia|by intros [? _]].
  - rewrite IH. tauto.
Qed.

Lemma App_process_video_alerts_aux cap :
  App.isOpened cap = true ->
  exists evs,
    App.process_video cap
    = (Some (App.fps cap, len (App.frames cap),
             flagged_from App.violating 1 (App.frames cap)), evs).
Proof.
  intros Hopen. unfold App.process_video. rewrite Hopen; cbn [negb].
  destruct (App_run (App.frames cap) App.init) as (Hi & Ha & _).
  cbn [App.init App.frame_idx App.alert_images app] in Hi, Ha.
  rewrite Hi, Ha, Z.add_0_l. by eexists.
Qed.

(** X18: the script of [app.py]. On a source that does not open, [main]
    prints the error and then raises at the tuple assignment: no video is
    recreated and nothing is mailed. On a source that opens it returns;
    the mail it builds says all clear exactly when no frame shows a person
    without any hardhat in the frame, and otherwise attaches the alert
    files of exactly those frames, in frame order; a failing SMTP exchange
    is printed, not raised. *)
Theorem App_main_mail (smtp_ok : bool) (cap : App.capture) :
  (App.isOpened cap = false ->
   AppScript.main smtp_ok cap
   = ([AppScript.Video App.PrintCannotOpen], AppScript.Raised)) /\
  (App.isOpened cap = true ->
   exists evs m,
     AppScript.main smtp_ok cap
     = ((AppScript.Video <$> evs) ++ [AppScript.RecreateVideo (App.fps cap)]
        ++ (if smtp_ok then [AppScript.Sent m; AppScript.PrintMailSent]
            else [AppScript.PrintMailFailed])
        ++ [AppScript.PrintDone],
        AppScript.Returned) /\
     AppScript.msg_attachments m
     = flagged_from App.violating 1 (App.frames cap) /\
     (AppScript.msg_body m = AppScript.AllClear <->
      Forall (λ f, App.violating f = false) (App.frames cap))).
Proof.
  split; intros Hopen.
  - unfold AppScript.main, App.process_video. by rewrite Hopen.
  - destruct (App_process_video_alerts_aux cap Hopen) as (evs & Hrun).
    unfold AppScript.main. rewrite Hrun.
    unfold AppScript.send_summary_email.
    pose proof (flagged_from_nil_iff App.violating (App.frames cap) 1) as Hnil.
    destruct (flagged_from App.violating 1 (App.frames cap)) as [|k ks] eqn:E.
    + exists evs, (AppScript.Message AppScript.AllClear []).
      split; [by destruct smtp_ok|]. split; [done|]. simpl. tauto.
    + exists evs, (AppScript.Message AppScript.Violations (k :: ks)).
      split; [by destruct smtp_ok|]. split; [done|]. simpl.
      split; [done|]. intros H. by apply Hnil in H.
Qed.

Lemma App_main_mail_witness :
  AppScript.main true (App.Capture false 25 [[Some [person_left]]])
  = ([AppScript.Video App.PrintCannotOpen], AppScript.Raised) /\
  exists evs m,
    AppScript.main false
      (App.Capture true 25 [[Some [person_left; hardhat_left]]])
    = ((AppScript.Video <$> evs) ++ [AppScript.RecreateVideo 25]
       ++ [AppScript.PrintMailFailed] ++ [AppScript.PrintDone],
       AppScript.Returned) /\
    AppScript.msg_body m = AppScript.AllClear.
Proof.
  split.
  - apply App_main_mail. reflexivity.
  - destruct (App_main_mail false
                (App.Capture true 25 [[Some [person_left; hardhat_left]]]))
      as [_ H].
    destruct (H eq_refl) as (evs & m & Hrun & _ & Hbody).
    exists evs, m. split; [exact Hrun|]. apply Hbody.
    repeat constructor.
Defined.

(** X19: the script of [app2.py]. On a source that does not open, [main]
    prints the error and the closing line and does nothing else. On a
    source that opens, it recreates the video, zips the alert folder and
    builds one mail that reports the number of violating frames out of
    the number of frames, with the zip attached, when some frame is
    violating, and the all-clear text without attachment otherwise. *)
Theorem App2_main_mail (smtp_ok : bool) (cap : App2.capture) :
  (App2.isOpened cap = false ->
   App2Script.main smtp_ok cap
   = [App2Script.Video App2.PrintCannotOpen; App2Script.PrintDone]) /\
  (App2.isOpened cap = true ->
   exists evs m,
     App2Script.main smtp_ok cap
     = (App2Script.Video <$> evs)
       ++ ([App2Script.RecreateVideo (App2.fps cap); App2Script.ZipAlerts]
           ++ (if smtp_ok then [App2Script.Sent m; App2Script.PrintMailSent]
               else [App2Script.PrintMailFailed]))
       ++ [App2Script.PrintDone] /\
     let violations := len (List.filter App2.violating (App2.frames cap)) in
     let total := len (App2.frames cap) in
     (Exists (λ f, App2.violating f = true) (App2.frames cap) ->
      m = App2Script.Message (App2Script.Violations violations total) true) /\
     (Forall (λ f, App2.violating f = false) (App2.frames cap) ->
      m = App2Script.Message (App2Script.AllClear total) false)).
Proof.
  split; intros Hopen.
  - unfold App2Script.main, App2.process_video. by rewrite Hopen.
  - unfold App2Script.main, App2.process_video. rewrite Hopen; cbn [negb].
    destruct (App2_run (App2.frames cap) App2.init) as [-> ->].
    cbn [App2.init App2.frame_idx App2.alert_count].
    rewrite !Z.add_0_l. unfold App2Script.send_summary_email.
    pose proof (filter_nil_iff App2.violating (App2.frames cap)) as Hnil.
    pose proof (len_filter_le App2.violating (App2.frames cap)) as Hle.
    destruct (Z.ltb_spec 0 (len (List.filter App2.violating (App2.frames cap))))
      as [Hpos|Hzero].
    + exists (App2.log (fold_left App2.process_frame (App2.frames cap) App2.init)),
        (App2Script.Message
           (App2Script.Violations
              (len (List.filter App2.violating (App2.frames cap)))
              (len (App2.frames cap))) true).
      split; [reflexivity|]. cbv zeta. split; [done|].
      intros Hall. apply Hnil in Hall. lia.
    + exists (App2.log (fold_left App2.process_frame (App2.frames cap) App2.init)),
        (App2Script.Message (App2Script.AllClear (len (App2.frames cap))) false).
      split; [reflexivity|]. cbv zeta. split; [|done].
      intros Hex. exfalso. assert (Hall : Forall (λ f, App2.violating f = false)
                                            (App2.frames cap)) by (apply Hnil; lia).
      apply Exists_exists in Hex as (f & Hin & Hf).
      rewrite Forall_forall in Hall. rewrite (Hall f Hin) in Hf. done.
Qed.

Lemma App2_main_mail_witness :
  exists evs m,
    App2Script.main true
      (App2.Capture true 25 [[Some [person_left]]; [Some [hardhat_left]]])
    = (App2Script.Video <$> evs)
      ++ ([App2Script.RecreateVideo 25; App2Script.ZipAlerts]
          ++ [App2Script.Sent m; App2Script.PrintMailSent])
      ++ [App2Script.PrintDone] /\
    m = App2Script.Message (App2Script.Violations 1 2) true.
Proof.
  destruct (App2_main_mail true
              (App2.Capture true 25 [[Some [person_left]]; [Some [hardhat_left]]]))
    as [_ H].
  destruct (H eq_refl) as (evs & m & Hrun & Hviol & _).
  exists evs, m. split; [exact Hrun|]. apply Hviol.
  apply Exists_cons_hd. reflexivity.
Defined.

End Scripts.
